(** * Wajeez meeting-intelligence server: a shallow embedding of [server.js]

    The server keeps processed meetings in an in-memory [Map], asks a remote
    generative model for a transcription and four analyses of it, and parses
    the model's replies with [JSON.parse] after removing Markdown code
    fences.  This file embeds that code as Rocq functions:

    - JavaScript strings are sequences of UTF-16 code units ([list N]);
    - JavaScript values that can come out of [JSON.parse] are the inductive
      type [value]; objects keep their properties in enumeration order;
    - exceptions are the [Throw] case of [completion], and [try]/[catch] is
      [try_return], or [mcatch] and [mtry] where the state is involved;
    - the remote model and the clock are the environment of one request
      ([Env]); the meeting map and the upload directory are the server state
      ([Server]), passed explicitly;
    - the file system may refuse to remove a file: whether it does, at each
      of the two removals of the upload handler, is the [Disk] of a request.

    Numbers are kept as exact decimal fractions: the rounding, overflow and
    underflow of IEEE doubles are not modelled.  Logging ([console.log]) and
    the one-second pauses between the analysis calls have no effect on any
    value and are left out, as are the configuration of multer, the health
    endpoint and the start of the server. *)

From Stdlib Require Import String Ascii.
From Stdlib Require Import NArith ZArith List Bool Lia DecimalN.
Import ListNotations.

Set Implicit Arguments.
Set Warnings "-register-all".

(* ================================================================= *)
(** * Strings *)

Module JsString.

(** A JavaScript string: its UTF-16 code units. *)
Definition jsstring := list N.

(** [js "abc"] is the string whose code units are the characters of the
    literal. *)
Definition js (s : string) : jsstring :=
  map N_of_ascii (list_ascii_of_string s).

(** Code unit of the double quote, and [jq], which reads a literal in
    which [~] stands for the double quote. *)
Definition dquote : N := 34%N.

Definition jq (s : string) : jsstring :=
  map (fun c => if N.eqb c 126 then dquote else c) (js s).

Definition LF : N := 10%N.

Fixpoint str_eqb (a b : jsstring) : bool :=
  match a, b with
  | [], [] => true
  | x :: a', y :: b' => N.eqb x y && str_eqb a' b'
  | _, _ => false
  end.

(** [starts_with p s]: [s] begins with [p]. *)
Fixpoint starts_with (p s : jsstring) : bool :=
  match p, s with
  | [], _ => true
  | x :: p', y :: s' => N.eqb x y && starts_with p' s'
  | _ :: _, [] => false
  end.

(** [String.prototype.substring(0, n)]. *)
Definition substring0 (n : nat) (s : jsstring) : jsstring := firstn n s.

(** [String.prototype.toLowerCase] on the ASCII letters; the extensions
    the program looks up are ASCII. *)
Definition toLowerCase (s : jsstring) : jsstring :=
  map (fun c => if (N.leb 65 c && N.leb c 90)%bool then (c + 32)%N else c) s.

(** Decimal digits of a natural number, most significant first. *)
Fixpoint uint_digits (d : Decimal.uint) : jsstring :=
  match d with
  | Decimal.Nil => []
  | Decimal.D0 d => 48%N :: uint_digits d
  | Decimal.D1 d => 49%N :: uint_digits d
  | Decimal.D2 d => 50%N :: uint_digits d
  | Decimal.D3 d => 51%N :: uint_digits d
  | Decimal.D4 d => 52%N :: uint_digits d
  | Decimal.D5 d => 53%N :: uint_digits d
  | Decimal.D6 d => 54%N :: uint_digits d
  | Decimal.D7 d => 55%N :: uint_digits d
  | Decimal.D8 d => 56%N :: uint_digits d
  | Decimal.D9 d => 57%N :: uint_digits d
  end.

Definition digits (n : N) : jsstring := uint_digits (N.to_uint n).

End JsString.
Export JsString.

(* ================================================================= *)
(** * Exceptions and completions *)

(** The three kinds of exception the program meets: [new Error(msg)] (its
    own and those of the model SDK and of [fs]), and the engine's
    [TypeError] and [SyntaxError]. *)
Inductive exn :=
| Error (message : jsstring)
| TypeError (message : jsstring)
| SyntaxError (message : jsstring).

Definition message (e : exn) : jsstring :=
  match e with Error m | TypeError m | SyntaxError m => m end.

Inductive completion (A : Type) :=
| Normal (a : A)
| Throw (e : exn).
Arguments Normal {A} a.
Arguments Throw {A} e.

Definition bind {A B} (c : completion A) (k : A -> completion B) : completion B :=
  match c with
  | Normal a => k a
  | Throw e => Throw e
  end.

(** [try { return c } catch (e) { return h e }] where the handler cannot
    throw: the function always returns. *)
Definition try_return {A} (c : completion A) (h : exn -> A) : A :=
  match c with
  | Normal a => a
  | Throw e => h e
  end.

Declare Scope js_scope.
Delimit Scope js_scope with js.
Notation "x <- c ;; k" := (bind c (fun x => k))
  (at level 61, c at next level, right associativity) : js_scope.
Open Scope js_scope.

(* ================================================================= *)
(** * Numbers and values *)

(** A number is an integer, or [m / 10^k] with [m] not a multiple of ten:
    every finite decimal has exactly one such form, so [===] on numbers is
    structural equality. *)
Inductive number :=
| Int (z : Z)
| Dec (m : Z) (k : positive).

(** [canon m k] is the number [m / 10^k]. *)
Fixpoint canon (m : Z) (k : nat) : number :=
  match k with
  | O => Int m
  | S k' => if Z.eqb (m mod 10) 0 then canon (m / 10) k'
            else Dec m (Pos.of_succ_nat k')
  end.

Definition num_of_nat (n : nat) : number := Int (Z.of_nat n).

Inductive value :=
| VUndefined
| VNull
| VBool (b : bool)
| VNum (n : number)
| VStr (s : jsstring)
| VArr (items : list value)
| VObj (props : list (jsstring * value)).

(** ** Primitive operations *)

Definition is_digit (c : N) : bool := (N.leb 48 c && N.leb c 57)%bool.

Fixpoint digits_value (acc : N) (s : jsstring) : option N :=
  match s with
  | [] => Some acc
  | c :: s' => if is_digit c then digits_value (acc * 10 + (c - 48)) s' else None
  end.

(** A property name that is a canonical array index ("0", "7", "42", below
    2^32 - 1): such names are enumerated first, in numeric order. *)
Definition array_index (k : jsstring) : option N :=
  match k with
  | [] => None
  | c :: rest =>
      if (N.eqb c 48 && negb (str_eqb rest []))%bool then None
      else match digits_value 0 k with
           | Some n => if N.ltb n 4294967295 then Some n else None
           | None => None
           end
  end.

Fixpoint own (k : jsstring) (ps : list (jsstring * value)) : option value :=
  match ps with
  | [] => None
  | (k', v) :: ps' => if str_eqb k k' then Some v else own k ps'
  end.

Fixpoint replace_own (k : jsstring) (v : value) (ps : list (jsstring * value))
  : list (jsstring * value) :=
  match ps with
  | [] => []
  | (k', v') :: ps' =>
      if str_eqb k k' then (k', v) :: ps' else (k', v') :: replace_own k v ps'
  end.

Fixpoint insert_index (i : N) (k : jsstring) (v : value) (ps : list (jsstring * value))
  : list (jsstring * value) :=
  match ps with
  | [] => [(k, v)]
  | (k', v') :: ps' =>
      match array_index k' with
      | Some j => if N.ltb j i then (k', v') :: insert_index i k v ps'
                  else (k, v) :: ps
      | None => (k, v) :: ps
      end
  end.

(** Defining or assigning the own property [k] of an ordinary object: an
    existing property keeps its place, a new one goes after the others
    (array indices first, in ascending order). *)
Definition obj_set (k : jsstring) (v : value) (ps : list (jsstring * value))
  : list (jsstring * value) :=
  match own k ps with
  | Some _ => replace_own k v ps
  | None => match array_index k with
            | Some i => insert_index i k v ps
            | None => ps ++ [(k, v)]
            end
  end.

(** [v.k] for a name [k] that no prototype defines (every name the program
    reads, [length] included, is of that kind): an own property of an object,
    the length of an array or of a string, [undefined] otherwise; reading a
    property of [null] or [undefined] throws. *)
Definition get (v : value) (k : jsstring) : completion value :=
  match v with
  | VUndefined =>
      Throw (TypeError (js "Cannot read properties of undefined (reading '" ++ k ++ js "')"))
  | VNull =>
      Throw (TypeError (js "Cannot read properties of null (reading '" ++ k ++ js "')"))
  | VObj ps => Normal (match own k ps with Some x => x | None => VUndefined end)
  | VArr xs =>
      Normal (if str_eqb k (js "length") then VNum (num_of_nat (length xs)) else VUndefined)
  | VStr s =>
      Normal (if str_eqb k (js "length") then VNum (num_of_nat (length s)) else VUndefined)
  | VBool _ | VNum _ => Normal VUndefined
  end.

(** [o.k = v] in sloppy mode.  On a primitive the assignment is dropped.  An
    array would gain a named property, which [value] cannot hold: the program
    assigns only to objects (see [counts_are_assigned_to_objects]). *)
Definition set (o : value) (k : jsstring) (v : value) : completion value :=
  match o with
  | VUndefined =>
      Throw (TypeError (js "Cannot set properties of undefined (setting '" ++ k ++ js "')"))
  | VNull =>
      Throw (TypeError (js "Cannot set properties of null (setting '" ++ k ++ js "')"))
  | VObj ps => Normal (VObj (obj_set k v ps))
  | _ => Normal o
  end.

(** [v === s] for a string primitive [s]. *)
Definition strict_eq_str (v : value) (s : jsstring) : bool :=
  match v with
  | VStr s' => str_eqb s' s
  | _ => false
  end.

(** [ToBoolean]. *)
Definition truthy (v : value) : bool :=
  match v with
  | VUndefined | VNull => false
  | VBool b => b
  | VNum (Int z) => negb (Z.eqb z 0)
  | VNum (Dec _ _) => true
  | VStr s => negb (str_eqb s [])
  | VArr _ | VObj _ => true
  end.

Fixpoint filterM (f : value -> completion bool) (xs : list value)
  : completion (list value) :=
  match xs with
  | [] => Normal []
  | x :: xs' =>
      b <- f x ;;
      r <- filterM f xs' ;;
      Normal (if b then x :: r else r)
  end.

(** [recv.filter(f)], where [what] is the text of the callee in the error
    message: only an array has a callable [filter]. *)
Definition call_filter (what : jsstring) (recv : value) (f : value -> completion bool)
  : completion (list value) :=
  match recv with
  | VArr xs => filterM f xs
  | VUndefined =>
      Throw (TypeError (js "Cannot read properties of undefined (reading 'filter')"))
  | VNull =>
      Throw (TypeError (js "Cannot read properties of null (reading 'filter')"))
  | _ => Throw (TypeError (what ++ js " is not a function"))
  end.

(** [recv.substring(0, n)]: only a string has a callable [substring]. *)
Definition call_substring0 (what : jsstring) (recv : value) (n : nat)
  : completion jsstring :=
  match recv with
  | VStr s => Normal (substring0 n s)
  | VUndefined =>
      Throw (TypeError (js "Cannot read properties of undefined (reading 'substring')"))
  | VNull =>
      Throw (TypeError (js "Cannot read properties of null (reading 'substring')"))
  | _ => Throw (TypeError (what ++ js " is not a function"))
  end.

(** ** Conversion to string *)

Fixpoint drop_zeros (s : jsstring) : jsstring :=
  match s with
  | c :: s' => if N.eqb c 48 then drop_zeros s' else s
  | [] => []
  end.

Definition strip_trailing_zeros (s : jsstring) : jsstring :=
  rev (drop_zeros (rev s)).

(** Exponential form of the number [0.s * 10^n], [s] its significant
    digits. *)
Definition exp_form (s : jsstring) (n : Z) : jsstring :=
  let e := (n - 1)%Z in
  let tail := js "e" ++ (if Z.ltb e 0 then js "-" else js "+") ++ digits (Z.abs_N e) in
  match s with
  | [] => []
  | [d] => d :: tail
  | d :: rest => d :: js "." ++ rest ++ tail
  end.

(** [Number::toString] in radix ten. *)
Definition number_to_string (x : number) : jsstring :=
  match x with
  | Int z =>
      let s := digits (Z.abs_N z) in
      let n := length s in
      let body := if Nat.leb n 21 then s
                  else exp_form (strip_trailing_zeros s) (Z.of_nat n) in
      if Z.ltb z 0 then js "-" ++ body else body
  | Dec m k =>
      let s := digits (Z.abs_N m) in
      let n := (Z.of_nat (length s) - Z.pos k)%Z in
      let body :=
        if (Z.ltb 0 n && Z.leb n 21)%bool
        then firstn (Z.to_nat n) s ++ js "." ++ skipn (Z.to_nat n) s
        else if (Z.ltb (-6) n && Z.leb n 0)%bool
        then js "0." ++ repeat 48%N (Z.to_nat (- n)) ++ s
        else exp_form s n in
      if Z.ltb m 0 then js "-" ++ body else body
  end.

Definition cannot_convert : exn :=
  TypeError (js "Cannot convert object to primitive value").

(** [ToString] of a value, as performed by a template literal and by [+]
    with a string.  An object prints as [[object Object]]; when it has an
    own property named [toString] (never callable in a decoded JSON value)
    the conversion throws.  An array prints its elements separated by
    commas, [null] as nothing. *)
Fixpoint to_string (v : value) : completion jsstring :=
  match v with
  | VUndefined => Normal (js "undefined")
  | VNull => Normal (js "null")
  | VBool b => Normal (if b then js "true" else js "false")
  | VNum n => Normal (number_to_string n)
  | VStr s => Normal s
  | VArr xs =>
      (fix join (l : list value) : completion jsstring :=
         match l with
         | [] => Normal []
         | x :: rest =>
             s <- match x with
                  | VUndefined | VNull => Normal []
                  | _ => to_string x
                  end ;;
             match rest with
             | [] => Normal s
             | _ :: _ => r <- join rest ;; Normal (s ++ 44%N :: r)
             end
         end) xs
  | VObj ps =>
      match own (js "toString") ps with
      | Some _ => Throw cannot_convert
      | None => Normal (js "[object Object]")
      end
  end.

(* ================================================================= *)
(** * [JSON.parse] *)

(** The JSON grammar of ECMA-404, read in one pass over the code units (the
    lexer) and one pass over the tokens (the parser): both are total. *)
Module JSON.

Inductive token :=
| TLBrace | TRBrace | TLBrack | TRBrack | TColon | TComma
| TString (s : jsstring)
| TNumber (n : number)
| TTrue | TFalse | TNull.

(** Where the lexer stands inside a number: [m] collects the digits of
    integer and fraction, [fc] counts those of the fraction, [ev] is the
    exponent. *)
Inductive num_phase :=
| NMinus
| NZero
| NInt (m : N)
| NDot (m : N)
| NFrac (m : N) (fc : nat)
| NExp (m : N) (fc : nat)
| NExpSign (m : N) (fc : nat) (eneg : bool)
| NExpDigits (m : N) (fc : nat) (eneg : bool) (ev : N).

Inductive lex_state :=
| LIdle
| LString (acc : jsstring)
| LEscape (acc : jsstring)
| LUnicode (acc : jsstring) (todo : nat) (code : N)
| LWord (rest : jsstring) (t : token)
| LNum (neg : bool) (ph : num_phase).

(** The number [(-1)^neg * m * 10^(e - fc)]. *)
Definition make_number (neg : bool) (m : N) (fc : nat) (e : Z) : number :=
  let sm := if neg then (- Z.of_N m)%Z else Z.of_N m in
  let ex := (e - Z.of_nat fc)%Z in
  if Z.leb 0 ex then Int (sm * 10 ^ ex)%Z else canon sm (Z.to_nat (- ex)).

(** The number a phase stands for when the literal may end there. *)
Definition finish_number (neg : bool) (ph : num_phase) : option number :=
  match ph with
  | NZero => Some (make_number neg 0 0 0)
  | NInt m => Some (make_number neg m 0 0)
  | NFrac m fc => Some (make_number neg m fc 0)
  | NExpDigits m fc eneg ev =>
      Some (make_number neg m fc (if eneg then - Z.of_N ev else Z.of_N ev)%Z)
  | NMinus | NDot _ | NExp _ _ | NExpSign _ _ _ => None
  end.

Definition is_space (c : N) : bool :=
  (N.eqb c 32 || N.eqb c 9 || N.eqb c 10 || N.eqb c 13)%bool.

Definition hex_value (c : N) : option N :=
  if is_digit c then Some (c - 48)%N
  else if (N.leb 65 c && N.leb c 70)%bool then Some (c - 55)%N
  else if (N.leb 97 c && N.leb c 102)%bool then Some (c - 87)%N
  else None.

(** One code unit read between two tokens. *)
Definition lex_idle (c : N) : option (lex_state * list token) :=
  if is_space c then Some (LIdle, [])
  else if N.eqb c 123 then Some (LIdle, [TLBrace])
  else if N.eqb c 125 then Some (LIdle, [TRBrace])
  else if N.eqb c 91 then Some (LIdle, [TLBrack])
  else if N.eqb c 93 then Some (LIdle, [TRBrack])
  else if N.eqb c 58 then Some (LIdle, [TColon])
  else if N.eqb c 44 then Some (LIdle, [TComma])
  else if N.eqb c dquote then Some (LString [], [])
  else if N.eqb c 45 then Some (LNum true NMinus, [])
  else if N.eqb c 48 then Some (LNum false NZero, [])
  else if is_digit c then Some (LNum false (NInt (c - 48)), [])
  else if N.eqb c 116 then Some (LWord (js "rue") TTrue, [])
  else if N.eqb c 102 then Some (LWord (js "alse") TFalse, [])
  else if N.eqb c 110 then Some (LWord (js "ull") TNull, [])
  else None.

Definition is_e (c : N) : bool := (N.eqb c 101 || N.eqb c 69)%bool.

(** One code unit read inside a number: the next phase, or [None] when
    the unit does not continue the literal. *)
Definition num_step (ph : num_phase) (c : N) : option num_phase :=
  let d := (c - 48)%N in
  match ph with
  | NMinus =>
      if N.eqb c 48 then Some NZero
      else if is_digit c then Some (NInt d) else None
  | NZero =>
      if N.eqb c 46 then Some (NDot 0)
      else if is_e c then Some (NExp 0 0) else None
  | NInt m =>
      if is_digit c then Some (NInt (m * 10 + d))
      else if N.eqb c 46 then Some (NDot m)
      else if is_e c then Some (NExp m 0) else None
  | NDot m =>
      if is_digit c then Some (NFrac (m * 10 + d) 1) else None
  | NFrac m fc =>
      if is_digit c then Some (NFrac (m * 10 + d) (S fc))
      else if is_e c then Some (NExp m fc) else None
  | NExp m fc =>
      if N.eqb c 43 then Some (NExpSign m fc false)
      else if N.eqb c 45 then Some (NExpSign m fc true)
      else if is_digit c then Some (NExpDigits m fc false d) else None
  | NExpSign m fc eneg =>
      if is_digit c then Some (NExpDigits m fc eneg d) else None
  | NExpDigits m fc eneg ev =>
      if is_digit c then Some (NExpDigits m fc eneg (ev * 10 + d)) else None
  end.

(** One step of the lexer: the next state and the tokens completed by the
    code unit, or [None] on a lexical error. *)
Definition lex_step (st : lex_state) (c : N) : option (lex_state * list token) :=
  match st with
  | LIdle => lex_idle c
  | LString acc =>
      if N.eqb c dquote then Some (LIdle, [TString (rev acc)])
      else if N.eqb c 92 then Some (LEscape acc, [])
      else if N.ltb c 32 then None
      else Some (LString (c :: acc), [])
  | LEscape acc =>
      if N.eqb c dquote then Some (LString (dquote :: acc), [])
      else if N.eqb c 92 then Some (LString (92%N :: acc), [])
      else if N.eqb c 47 then Some (LString (47%N :: acc), [])
      else if N.eqb c 98 then Some (LString (8%N :: acc), [])
      else if N.eqb c 102 then Some (LString (12%N :: acc), [])
      else if N.eqb c 110 then Some (LString (10%N :: acc), [])
      else if N.eqb c 114 then Some (LString (13%N :: acc), [])
      else if N.eqb c 116 then Some (LString (9%N :: acc), [])
      else if N.eqb c 117 then Some (LUnicode acc 4 0, [])
      else None
  | LUnicode acc todo code =>
      match hex_value c with
      | Some h =>
          let code' := (code * 16 + h)%N in
          match todo with
          | S (S l) => Some (LUnicode acc (S l) code', [])
          | _ => Some (LString (code' :: acc), [])
          end
      | None => None
      end
  | LWord rest t =>
      match rest with
      | r :: rest' =>
          if N.eqb c r
          then match rest' with
               | [] => Some (LIdle, [t])
               | _ :: _ => Some (LWord rest' t, [])
               end
          else None
      | [] => None
      end
  | LNum neg ph =>
      match num_step ph c with
      | Some ph' => Some (LNum neg ph', [])
      | None =>
          match finish_number neg ph, lex_idle c with
          | Some n, Some (st', ts) => Some (st', TNumber n :: ts)
          | _, _ => None
          end
      end
  end.

Fixpoint lex_from (st : lex_state) (s : jsstring) : option (list token) :=
  match s with
  | [] =>
      match st with
      | LIdle => Some []
      | LNum neg ph =>
          match finish_number neg ph with
          | Some n => Some [TNumber n]
          | None => None
          end
      | _ => None
      end
  | c :: s' =>
      match lex_step st c with
      | Some (st', ts) =>
          match lex_from st' s' with
          | Some rest => Some (ts ++ rest)
          | None => None
          end
      | None => None
      end
  end.

Definition lex (s : jsstring) : option (list token) := lex_from LIdle s.

(** An enclosing array with its elements so far (last first), or an
    enclosing object with its properties so far and the name whose value
    is being read. *)
Inductive frame :=
| FArr (items : list value)
| FObj (props : list (jsstring * value)) (key : jsstring).

Inductive pstate :=
| PValue (stack : list frame)
| PArrFirst (stack : list frame)
| PArrNext (items : list value) (stack : list frame)
| PObjFirst (stack : list frame)
| PObjKey (props : list (jsstring * value)) (stack : list frame)
| PObjColon (props : list (jsstring * value)) (key : jsstring) (stack : list frame)
| PObjNext (props : list (jsstring * value)) (stack : list frame)
| PDone (v : value).

(** A value is complete: it goes into the enclosing container. *)
Definition reduce (v : value) (stack : list frame) : pstate :=
  match stack with
  | [] => PDone v
  | FArr items :: st => PArrNext (v :: items) st
  | FObj props key :: st => PObjNext (obj_set key v props) st
  end.

(** A token read where a value is expected. *)
Definition parse_value (stack : list frame) (t : token) : option pstate :=
  match t with
  | TString s => Some (reduce (VStr s) stack)
  | TNumber n => Some (reduce (VNum n) stack)
  | TTrue => Some (reduce (VBool true) stack)
  | TFalse => Some (reduce (VBool false) stack)
  | TNull => Some (reduce VNull stack)
  | TLBrack => Some (PArrFirst stack)
  | TLBrace => Some (PObjFirst stack)
  | TRBrace | TRBrack | TColon | TComma => None
  end.

Definition parse_step (st : pstate) (t : token) : option pstate :=
  match st, t with
  | PValue stack, _ => parse_value stack t
  | PArrFirst stack, TRBrack => Some (reduce (VArr []) stack)
  | PArrFirst stack, _ => parse_value (FArr [] :: stack) t
  | PArrNext items stack, TComma => Some (PValue (FArr items :: stack))
  | PArrNext items stack, TRBrack => Some (reduce (VArr (rev items)) stack)
  | PObjFirst stack, TRBrace => Some (reduce (VObj []) stack)
  | PObjFirst stack, TString k => Some (PObjColon [] k stack)
  | PObjKey props stack, TString k => Some (PObjColon props k stack)
  | PObjColon props k stack, TColon => Some (PValue (FObj props k :: stack))
  | PObjNext props stack, TComma => Some (PObjKey props stack)
  | PObjNext props stack, TRBrace => Some (reduce (VObj props) stack)
  | _, _ => None
  end.

Fixpoint parse_from (st : pstate) (ts : list token) : option value :=
  match ts with
  | [] => match st with PDone v => Some v | _ => None end
  | t :: ts' =>
      match parse_step st t with
      | Some st' => parse_from st' ts'
      | None => None
      end
  end.

Definition syntax_error : exn := SyntaxError (js "Unexpected token in JSON").

(** [JSON.parse(text)].  The wording of the [SyntaxError] depends on the
    engine and on the position of the error; the program never reads it. *)
Definition parse (text : jsstring) : completion value :=
  match lex text with
  | Some ts =>
      match parse_from (PValue []) ts with
      | Some v => Normal v
      | None => Throw syntax_error
      end
  | None => Throw syntax_error
  end.

End JSON.

(* ================================================================= *)
(** * Node library functions used by the server *)

(** [buffer.toString('base64')]; a byte is a number below 256. *)
Definition base64_alphabet : jsstring :=
  js "ABCDEFGHIJKLMNOPQRSTUVWXYZabcdefghijklmnopqrstuvwxyz0123456789+/".

Definition b64 (n : N) : N := nth (N.to_nat n) base64_alphabet 61%N.

Fixpoint base64 (bytes : list N) : jsstring :=
  match bytes with
  | [] => []
  | [a] => [b64 (a / 4); b64 (a mod 4 * 16); 61; 61]%N
  | [a; b] => [b64 (a / 4); b64 (a mod 4 * 16 + b / 16); b64 (b mod 16 * 4); 61]%N
  | a :: b :: c :: rest =>
      (b64 (a / 4) :: b64 (a mod 4 * 16 + b / 16)
       :: b64 (b mod 16 * 4 + c / 64) :: b64 (c mod 64) :: base64 rest)%N
  end.

(** The part of [s] from the last occurrence of [c] on. *)
Fixpoint from_last (c : N) (s : jsstring) : option jsstring :=
  match s with
  | [] => None
  | x :: s' =>
      match from_last c s' with
      | Some r => Some r
      | None => if N.eqb x c then Some s else None
      end
  end.

Fixpoint drop_slashes (s : jsstring) : jsstring :=
  match s with
  | c :: s' => if N.eqb c 47 then drop_slashes s' else s
  | [] => []
  end.

(** [path.extname] (POSIX): the last component from its last dot on, empty
    when there is no dot, when the only dot leads the component, or when
    the component is [..]. *)
Definition extname (p : jsstring) : jsstring :=
  let trimmed := rev (drop_slashes (rev p)) in
  let base := match from_last 47 trimmed with
              | Some (_ :: r) => r
              | _ => trimmed
              end in
  match from_last 46 base with
  | None => []
  | Some e =>
      if Nat.eqb (length e) (length base) then []
      else if str_eqb base (js "..") then []
      else e
  end.

(* ================================================================= *)
(** * Server state and environment *)

(** The record built at the end of a successful upload ([meetingData]). *)
Record Meeting := {
  id : jsstring;
  filename : jsstring;
  timestamp : jsstring;
  transcription : jsstring;
  summary : value;
  tasks : value;
  improvements : value;
  factCheck : value
}.

Definition Meeting_value (m : Meeting) : value :=
  VObj [(js "id", VStr (id m));
        (js "filename", VStr (filename m));
        (js "timestamp", VStr (timestamp m));
        (js "transcription", VStr (transcription m));
        (js "summary", summary m);
        (js "tasks", tasks m);
        (js "improvements", improvements m);
        (js "factCheck", factCheck m)].

(** A JavaScript [Map] with string keys: its entries in insertion order. *)
Module Map.

Definition t := list (jsstring * Meeting).

Definition empty : t := [].

Fixpoint get (k : jsstring) (m : t) : option Meeting :=
  match m with
  | [] => None
  | (k', v) :: m' => if str_eqb k k' then Some v else get k m'
  end.

Definition has (k : jsstring) (m : t) : bool :=
  match get k m with Some _ => true | None => false end.

(** [map.set(k, v)]: the value of an existing key is replaced where the
    key stands; a new key is added at the end. *)
Fixpoint set (k : jsstring) (v : Meeting) (m : t) : t :=
  match m with
  | [] => [(k, v)]
  | (k', v') :: m' =>
      if str_eqb k k' then (k', v) :: m' else (k', v') :: set k v m'
  end.

Definition keys (m : t) : list jsstring := map fst m.
Definition values (m : t) : list Meeting := map snd m.

End Map.

(** The mutable state of the process: [meetingDatabase] and the files
    of the upload directory (path and contents). *)
Record Server := {
  meetingDatabase : Map.t;
  files : list (jsstring * list N)
}.

(** What one model call is given: a text, or inline data with its MIME
    type. *)
Inductive Part :=
| PText (text : jsstring)
| PInline (data : jsstring) (mimeType : jsstring).

(** The surroundings of one request.  [generateContent parts] is the text
    [response.text()] of the model's answer to [parts], or the exception
    thrown on the way; [Date_now] is the clock read by [Date.now()] and
    [toISOString] the text of [new Date().toISOString()]. *)
Record Env := {
  generateContent : list Part -> completion jsstring;
  Date_now : N;
  toISOString : jsstring
}.

(** The upload that multer hands to the handler ([req.file]). *)
Record File := {
  path : jsstring;
  originalname : jsstring;
  size : N
}.

Record Response := {
  status : N;
  body : value
}.

(** [res.json(b)] and [res.status(s).json(b)]. *)
Definition json (b : value) : Response := {| status := 200; body := b |}.
Definition status_json (s : N) (b : value) : Response := {| status := s; body := b |}.

(** ** Effects: state and exceptions *)

(** A computation that reads and writes the server state and may throw;
    the state reached when it throws is kept for the handler. *)
Definition M (A : Type) : Type := Server -> completion A * Server.

Definition ret {A} (a : A) : M A := fun s => (Normal a, s).
Definition throw {A} (e : exn) : M A := fun s => (Throw e, s).
Definition lift {A} (c : completion A) : M A := fun s => (c, s).

Definition mbind {A B} (c : M A) (k : A -> M B) : M B :=
  fun s => match c s with
           | (Normal a, s') => k a s'
           | (Throw e, s') => (Throw e, s')
           end.

(** [try { c } catch (e) { h e }] for a handler that may throw again, and
    for one that does not. *)
Definition mcatch {A} (c : M A) (h : exn -> M A) : M A :=
  fun s => match c s with
           | (Normal a, s') => (Normal a, s')
           | (Throw e, s') => h e s'
           end.

Definition mtry {A} (c : M A) (h : exn -> Server -> A * Server) : Server -> A * Server :=
  fun s => match c s with
           | (Normal a, s') => (a, s')
           | (Throw e, s') => h e s'
           end.

Notation "x <~ c ;; k" := (mbind c (fun x => k))
  (at level 61, c at next level, right associativity) : js_scope.
Notation "c ~;; k" := (mbind c (fun _ => k))
  (at level 61, right associativity) : js_scope.

(** ** The file system *)

Fixpoint lookup_file (p : jsstring) (fs : list (jsstring * list N)) : option (list N) :=
  match fs with
  | [] => None
  | (p', d) :: fs' => if str_eqb p p' then Some d else lookup_file p fs'
  end.

Fixpoint remove_file (p : jsstring) (fs : list (jsstring * list N)) : list (jsstring * list N) :=
  match fs with
  | [] => []
  | (p', d) :: fs' => if str_eqb p p' then fs' else (p', d) :: remove_file p fs'
  end.

Definition enoent (call p : jsstring) : exn :=
  Error (js "ENOENT: no such file or directory, " ++ call ++ js " '" ++ p ++ js "'").

Definition eperm (call p : jsstring) : exn :=
  Error (js "EPERM: operation not permitted, " ++ call ++ js " '" ++ p ++ js "'").

(** [fs.promises.readFile(p)]. *)
Definition readFile (p : jsstring) : M (list N) :=
  fun s => match lookup_file p (files s) with
           | Some d => (Normal d, s)
           | None => (Throw (enoent (js "open") p), s)
           end.

(** [fsSync.existsSync(p)]. *)
Definition existsSync (p : jsstring) : M bool :=
  fun s => (Normal (match lookup_file p (files s) with Some _ => true | None => false end), s).

(** [fs.promises.unlink(p)].  A file that is not there cannot be removed;
    one that is there is removed unless the file system refuses, and
    [refusal] is the error it then rejects with ([EPERM], [EBUSY], ...). *)
Definition unlink (refusal : option exn) (p : jsstring) : M unit :=
  fun s => match lookup_file p (files s) with
           | Some _ =>
               match refusal with
               | Some e => (Throw e, s)
               | None => (Normal tt, {| meetingDatabase := meetingDatabase s;
                                        files := remove_file p (files s) |})
               end
           | None => (Throw (enoent (js "unlink") p), s)
           end.

(** How the file system answers the two removals a request can ask for:
    the one after the meeting is stored, and the one of the [catch]
    block.  [willing] refuses neither. *)
Record Disk := {
  unlink_after_store : option exn;
  unlink_in_catch : option exn
}.

Definition willing : Disk :=
  {| unlink_after_store := None; unlink_in_catch := None |}.

(** [meetingDatabase.set(k, v)]. *)
Definition db_set (k : jsstring) (v : Meeting) : M unit :=
  fun s => (Normal tt, {| meetingDatabase := Map.set k v (meetingDatabase s);
                          files := files s |}).

(* ================================================================= *)
(** * Prompts *)

(** The prompt of [generateMeetingSummary]. *)
Definition summary_prompt (transcription : jsstring) : jsstring :=
  jq "
      Analyze this meeting transcription and provide a comprehensive summary in JSON format.
      
      IMPORTANT: ALL OUTPUT MUST BE IN ENGLISH ONLY.
      
      Return a valid JSON object with the following structure:
      {
        ~overview~: ~2-3 sentence overview of the meeting~,
        ~duration~: ~estimated duration if mentioned~,
        ~participants~: [~List of participants if identifiable~],
        ~keyPoints~: [
          {
            ~title~: ~Main topic discussed~,
            ~description~: ~Brief description of the topic~,
            ~importance~: ~high/medium/low~
          }
        ],
        ~decisions~: [
          {
            ~decision~: ~Decision that was made~,
            ~rationale~: ~Why this decision was made~,
            ~responsible~: ~Who is responsible~
          }
        ],
        ~insights~: [
          ~Important insight or information that emerged~
        ],
        ~outcomes~: [
          ~Concrete outcome or result from the meeting~
        ],
        ~nextSteps~: [
          ~What happens next after this meeting~
        ]
      }
      
      Transcription:
      ~"
  ++ transcription ++
  jq "~
    ".

(** The prompt of [extractTasks]. *)
Definition tasks_prompt (transcription : jsstring) : jsstring :=
  jq "
      Analyze this meeting transcription and extract all tasks and action items.
      
      IMPORTANT: ALL OUTPUT MUST BE IN ENGLISH ONLY.
      
      Return a valid JSON object with the following structure:
      {
        ~tasks~: [
          {
            ~id~: 1,
            ~task~: ~Clear description of what needs to be done~,
            ~assignedTo~: ~Person responsible or 'Unassigned'~,
            ~deadline~: ~Deadline if mentioned or 'Not specified'~,
            ~priority~: ~high/medium/low~,
            ~status~: ~pending~,
            ~context~: ~Brief context about why this task was assigned~,
            ~dependencies~: [~List any dependencies if mentioned~]
          }
        ],
        ~followUpItems~: [
          ~Items that need follow-up but aren't specific tasks~
        ],
        ~totalTasks~: 0,
        ~highPriorityCount~: 0,
        ~assignedCount~: 0,
        ~unassignedCount~: 0
      }
      
      If no tasks were identified, return an object with empty arrays.
      
      Transcription:
      ~"
  ++ transcription ++
  jq "~
    ".

(** The prompt of [generateImprovements]. *)
Definition improvements_prompt (transcription : jsstring) : jsstring :=
  jq "
      Analyze this meeting transcription and provide recommendations for improvement.
      
      IMPORTANT: ALL OUTPUT MUST BE IN ENGLISH ONLY.
      
      Return a valid JSON object with the following structure:
      {
        ~effectivenessScore~: 7,
        ~scoreRationale~: ~Explanation for the score~,
        ~strengths~: [
          {
            ~area~: ~What went well~,
            ~description~: ~Why it was good~
          }
        ],
        ~improvements~: {
          ~structure~: [
            ~How could the meeting structure be improved~
          ],
          ~communication~: [
            ~How could communication be clearer~
          ],
          ~participation~: [
            ~How to improve engagement and participation~
          ],
          ~timeManagement~: [
            ~How to better manage time~
          ],
          ~decisionMaking~: [
            ~How to make decisions more efficiently~
          ]
        },
        ~recommendations~: [
          {
            ~priority~: ~high/medium/low~,
            ~recommendation~: ~Specific actionable recommendation~,
            ~impact~: ~Expected impact of implementing this~
          }
        ],
        ~bestPractices~: [
          ~Best practice to adopt for future meetings~
        ]
      }
      
      Transcription:
      ~"
  ++ transcription ++
  jq "~
    ".

(** The prompt of [factCheckTranscription]. *)
Definition factcheck_prompt (transcription : jsstring) : jsstring :=
  jq "
      Analyze this meeting transcription for potential errors, inconsistencies, or claims that need fact-checking.
      
      IMPORTANT: ALL OUTPUT MUST BE IN ENGLISH ONLY.
      
      Return a valid JSON object with the following structure:
      {
        ~transcriptionQuality~: {
          ~rating~: ~excellent/good/fair/poor~,
          ~score~: 85,
          ~issues~: [
            ~List any quality issues found~
          ]
        },
        ~potentialErrors~: [
          {
            ~text~: ~The questionable text~,
            ~suggestion~: ~What it might actually be~,
            ~confidence~: ~high/medium/low~,
            ~type~: ~spelling/grammar/context~
          }
        ],
        ~factualClaims~: [
          {
            ~claim~: ~What was stated~,
            ~speaker~: ~Who said it if identifiable~,
            ~verificationStatus~: ~verified/unverified/incorrect~,
            ~correctInformation~: ~Correct info if claim is incorrect~,
            ~source~: ~Source of verification if available~
          }
        ],
        ~inconsistencies~: [
          {
            ~issue~: ~Description of the inconsistency~,
            ~location~: ~Where in the discussion~,
            ~severity~: ~high/medium/low~
          }
        ],
        ~dataPoints~: [
          {
            ~type~: ~number/date/statistic~,
            ~value~: ~The data mentioned~,
            ~context~: ~Context of the data~,
            ~verification~: ~verified/unverified/questionable~
          }
        ],
        ~technicalTerms~: [
          {
            ~term~: ~Technical term used~,
            ~usage~: ~How it was used~,
            ~correct~: true,
            ~definition~: ~Brief definition~
          }
        ],
        ~recommendations~: [
          ~Recommendation for verifying uncertain information~
        ]
      }
      
      Transcription:
      ~"
  ++ transcription ++
  jq "~
    ".

(** The prompt of [transcribeWithGemini]. *)
Definition transcribe_prompt : jsstring :=
  jq "Please transcribe this audio file accurately. Include speaker labels if multiple speakers are detected (e.g., Speaker 1:, Speaker 2:). Provide only the transcription without any additional commentary. If the audio is in Arabic or any other language, transcribe it in its original language.".

(** The context block of the chat endpoint, around the three values it
    interpolates. *)
Definition chat_context (transcription summary tasks : jsstring) : jsstring :=
  jq "
        Context from the meeting:
        Transcription: "
  ++ transcription ++
  jq "
        Summary: "
  ++ summary ++
  jq "
        Tasks: "
  ++ tasks ++
  jq "
        
        Based on this meeting context, please answer the following question:
      ".

(** The directive appended to every chat prompt. *)
Definition chat_directive : jsstring :=
  [LF; LF] ++ js "IMPORTANT: Respond in ENGLISH only.".

(* ================================================================= *)
(** * The response parser *)

(** The marker of a code fence. *)
Definition fence : jsstring := js "```".

(** Length of the match of [/```json\n?|\n?```/] at the head of [s], if
    there is one: the first alternative is tried first, and each optional
    line feed is taken when it is there. *)
Definition match_fence (s : jsstring) : option nat :=
  if starts_with (fence ++ js "json") s
  then Some (if starts_with [LF] (skipn 7 s) then 8 else 7)
  else if starts_with (LF :: fence) s then Some 4
  else if starts_with fence s then Some 3
  else None.

(** The rest of a global replace by the empty string, [skip] code units of
    the current match still to be dropped. *)
Fixpoint strip_fences_from (skip : nat) (s : jsstring) : jsstring :=
  match s with
  | [] => []
  | c :: s' =>
      match skip with
      | S k => strip_fences_from k s'
      | O =>
          match match_fence s with
          | Some (S k) => strip_fences_from k s'
          | _ => c :: strip_fences_from 0 s'
          end
      end
  end.

(** [text.replace(/```json\n?|\n?```/g, '')]. *)
Definition strip_fences (text : jsstring) : jsstring := strip_fences_from 0 text.

(** [JSON.parse(text.replace(/```json\n?|\n?```/g, ''))], the expression
    every analysis function decodes the model's reply with. *)
Definition parse_reply (text : jsstring) : completion value :=
  JSON.parse (strip_fences text).

(* ================================================================= *)
(** * The four analyses *)

Definition num (n : Z) : value := VNum (Int n).
Definition str (s : string) : value := VStr (js s).

(** ** Summary *)

Definition summary_fallback : value :=
  VObj [(js "overview", str "Failed to parse summary");
        (js "keyPoints", VArr []);
        (js "decisions", VArr []);
        (js "insights", VArr []);
        (js "outcomes", VArr []);
        (js "nextSteps", VArr [])].

Definition summary_error (error : exn) : value :=
  VObj [(js "error", str "Failed to generate summary");
        (js "message", VStr (message error))].

Definition generateMeetingSummary (env : Env) (transcription : jsstring) : value :=
  try_return
    (text <- generateContent env [PText (summary_prompt transcription)] ;;
     Normal (try_return (parse_reply text) (fun _ => summary_fallback)))
    summary_error.

(** ** Tasks *)

Definition tasks_fallback : value :=
  VObj [(js "tasks", VArr []);
        (js "followUpItems", VArr []);
        (js "totalTasks", num 0);
        (js "highPriorityCount", num 0);
        (js "assignedCount", num 0);
        (js "unassignedCount", num 0)].

Definition tasks_error (error : exn) : value :=
  VObj [(js "error", str "Failed to extract tasks");
        (js "tasks", VArr []);
        (js "followUpItems", VArr [])].

(** [data.tasks.filter(t => t.k === s).length] and its negation. *)
Definition count_where (data : value) (k : jsstring) (negated : bool) (s : jsstring)
  : completion value :=
  ts <- get data (js "tasks") ;;
  kept <- call_filter (js "data.tasks.filter") ts
            (fun t => p <- get t k ;;
                      Normal (if negated then negb (strict_eq_str p s)
                              else strict_eq_str p s)) ;;
  Normal (VNum (num_of_nat (length kept))).

(** The body of the inner [try] of [extractTasks], after the decode: the
    four assignments under [// Calculate counts]. *)
Definition calculate_counts (data : value) : completion value :=
  ts <- get data (js "tasks") ;;
  n <- get ts (js "length") ;;
  data <- set data (js "totalTasks") n ;;
  n <- count_where data (js "priority") false (js "high") ;;
  data <- set data (js "highPriorityCount") n ;;
  n <- count_where data (js "assignedTo") true (js "Unassigned") ;;
  data <- set data (js "assignedCount") n ;;
  n <- count_where data (js "assignedTo") false (js "Unassigned") ;;
  data <- set data (js "unassignedCount") n ;;
  Normal data.

Definition extractTasks (env : Env) (transcription : jsstring) : value :=
  try_return
    (text <- generateContent env [PText (tasks_prompt transcription)] ;;
     Normal (try_return (data <- parse_reply text ;; calculate_counts data)
                        (fun _ => tasks_fallback)))
    tasks_error.

(** ** Improvements *)

Definition improvements_fallback : value :=
  VObj [(js "effectivenessScore", num 0);
        (js "scoreRationale", str "Unable to analyze");
        (js "strengths", VArr []);
        (js "improvements", VObj []);
        (js "recommendations", VArr []);
        (js "bestPractices", VArr [])].

Definition improvements_error (error : exn) : value :=
  VObj [(js "error", str "Failed to generate improvements");
        (js "message", VStr (message error))].

Definition generateImprovements (env : Env) (transcription : jsstring) : value :=
  try_return
    (text <- generateContent env [PText (improvements_prompt transcription)] ;;
     Normal (try_return (parse_reply text) (fun _ => improvements_fallback)))
    improvements_error.

(** ** Fact check *)

Definition factcheck_fallback : value :=
  VObj [(js "transcriptionQuality",
         VObj [(js "rating", str "unknown"); (js "score", num 0); (js "issues", VArr [])]);
        (js "potentialErrors", VArr []);
        (js "factualClaims", VArr []);
        (js "inconsistencies", VArr []);
        (js "dataPoints", VArr []);
        (js "technicalTerms", VArr []);
        (js "recommendations", VArr [])].

Definition factcheck_error (error : exn) : value :=
  VObj [(js "error", str "Failed to perform fact-check");
        (js "message", VStr (message error))].

Definition factCheckTranscription (env : Env) (transcription : jsstring) : value :=
  try_return
    (text <- generateContent env [PText (factcheck_prompt transcription)] ;;
     Normal (try_return (parse_reply text) (fun _ => factcheck_fallback)))
    factcheck_error.

(* ================================================================= *)
(** * Transcription *)

Definition mimeTypes : list (jsstring * jsstring) :=
  [(js ".mp3", js "audio/mp3");
   (js ".wav", js "audio/wav");
   (js ".m4a", js "audio/mp4");
   (js ".webm", js "audio/webm");
   (js ".ogg", js "audio/ogg");
   (js ".flac", js "audio/flac");
   (js ".mp4", js "audio/mp4")].

Fixpoint assoc (k : jsstring) (l : list (jsstring * jsstring)) : option jsstring :=
  match l with
  | [] => None
  | (k', v) :: l' => if str_eqb k k' then Some v else assoc k l'
  end.

Definition transcribeWithGemini (env : Env) (filePath : jsstring) : M jsstring :=
  mcatch
    (audioData <~ readFile filePath ;;
     let base64Audio := base64 audioData in
     let ext := toLowerCase (extname filePath) in
     let mimeType := match assoc ext mimeTypes with
                     | Some m => m
                     | None => js "audio/mpeg"
                     end in
     let audioPart := PInline base64Audio mimeType in
     lift (generateContent env [PText transcribe_prompt; audioPart]))
    (fun error =>
       throw (Error (js "Failed to transcribe audio with Gemini: " ++ message error))).

(* ================================================================= *)
(** * The endpoints *)

(** ** [POST /api/process-audio] *)

(** [Date.now().toString()]. *)
Definition now_string (env : Env) : jsstring :=
  number_to_string (Int (Z.of_N (Date_now env))).

(** The clean-up of the [catch] block: the upload is removed when it is
    still there, and a failure of the removal is swallowed. *)
Definition cleanup_on (d : Disk) (file : option File) (s : Server) : Server :=
  match file with
  | Some f =>
      if truthy (VStr (path f))
      then match existsSync (path f) s with
           | (Normal true, s') => snd (unlink (unlink_in_catch d) (path f) s')
           | (_, s') => s'
           end
      else s
  | None => s
  end.

(** The handler, on a disk [d]. *)
Definition process_audio_on (d : Disk) (env : Env) (file : option File)
  : Server -> Response * Server :=
  mtry
    (match file with
     | None => ret (status_json 400 (VObj [(js "error", str "No audio file uploaded")]))
     | Some f =>
         let filePath := path f in
         let meetingId := now_string env in
         transcription <~ transcribeWithGemini env filePath ;;
         (if negb (truthy (VStr transcription))
          then throw (Error (js "Failed to transcribe audio"))
          else ret tt) ~;;
         let summary := generateMeetingSummary env transcription in
         let tasks := extractTasks env transcription in
         let improvements := generateImprovements env transcription in
         let factCheck := factCheckTranscription env transcription in
         let meetingData :=
           {| id := meetingId;
              filename := originalname f;
              timestamp := toISOString env;
              transcription := transcription;
              summary := summary;
              tasks := tasks;
              improvements := improvements;
              factCheck := factCheck |} in
         db_set meetingId meetingData ~;;
         there <~ existsSync filePath ;;
         (if there then unlink (unlink_after_store d) filePath else ret tt) ~;;
         ret (json (VObj [(js "success", VBool true);
                          (js "meetingId", VStr meetingId);
                          (js "transcription", VStr transcription);
                          (js "summary", summary);
                          (js "tasks", tasks);
                          (js "improvements", improvements);
                          (js "factCheck", factCheck);
                          (js "filename", VStr (originalname f));
                          (js "filesize", num (Z.of_N (size f)));
                          (js "timestamp", VStr (timestamp meetingData))]))
     end)
    (fun error s =>
       (status_json 500 (VObj [(js "error", str "Failed to process audio file");
                               (js "details", VStr (message error))]),
        cleanup_on d file s)).

(** The clean-up and the handler on a disk that refuses no removal. *)
Definition cleanup : option File -> Server -> Server := cleanup_on willing.

Definition process_audio : Env -> option File -> Server -> Response * Server :=
  process_audio_on willing.

(** ** [POST /api/chat] *)

(** [meetingId && meetingDatabase.has(meetingId)] followed by
    [meetingDatabase.get(meetingId)]: the keys of the map are strings, and
    no other value is the same as one. *)
Definition resolve (meetingId : value) (db : Map.t) : option Meeting :=
  match meetingId with
  | VStr k => if (truthy meetingId && Map.has k db)%bool then Map.get k db else None
  | _ => None
  end.

(** The constant [prompt] of the handler: the context block when the
    meeting is found, the message, and the directive. *)
Definition chat_prompt (db : Map.t) (message meetingId : value) : completion jsstring :=
  context <- match resolve meetingId db with
             | Some meeting =>
                 s <- to_string (summary meeting) ;;
                 t <- to_string (tasks meeting) ;;
                 Normal (chat_context (transcription meeting) s t)
             | None => Normal []
             end ;;
  m <- to_string message ;;
  Normal (context ++ m ++ chat_directive).

Definition chat (env : Env) (body : value) (s : Server) : Response :=
  try_return
    (message <- get body (js "message") ;;
     meetingId <- get body (js "meetingId") ;;
     if negb (truthy message)
     then Normal (status_json 400 (VObj [(js "error", str "No message provided")]))
     else
       prompt <- chat_prompt (meetingDatabase s) message meetingId ;;
       text <- generateContent env [PText prompt] ;;
       Normal (json (VObj [(js "success", VBool true);
                           (js "response", VStr text)])))
    (fun error =>
       status_json 500 (VObj [(js "error", str "Failed to process chat message");
                              (js "details", VStr (message error))])).

(** ** [GET /api/meetings] *)

Fixpoint mapM {A B} (f : A -> completion B) (l : list A) : completion (list B) :=
  match l with
  | [] => Normal []
  | x :: l' => y <- f x ;; r <- mapM f l' ;; Normal (y :: r)
  end.

(** The arrow function given to [map]: one entry of the listing. *)
Definition meeting_entry (m : Meeting) : completion value :=
  short <- call_substring0 (js "m.summary.substring") (summary m) 200 ;;
  Normal (VObj [(js "id", VStr (id m));
                (js "filename", VStr (filename m));
                (js "timestamp", VStr (timestamp m));
                (js "summary", VStr (short ++ js "..."))]).

(** The handler has no [try]: an exception leaves it, and Express answers
    with its own error page. *)
Definition get_meetings (s : Server) : completion Response :=
  meetings <- mapM meeting_entry (Map.values (meetingDatabase s)) ;;
  Normal (json (VObj [(js "success", VBool true);
                      (js "meetings", VArr (rev meetings))])).

(** ** [GET /api/meeting/:id] *)

Definition get_meeting (param_id : jsstring) (s : Server) : Response :=
  match Map.get param_id (meetingDatabase s) with
  | None => status_json 404 (VObj [(js "error", str "Meeting not found")])
  | Some meeting => json (VObj [(js "success", VBool true);
                                (js "meeting", Meeting_value meeting)])
  end.


(* ================================================================= *)
(** * The upload middleware *)

(** The options given to multer: the MIME types the file filter lets
    through, the filter itself, the name under which an upload is stored,
    and the size limit. *)
Definition allowedTypes : list jsstring :=
  [js "audio/mpeg"; js "audio/wav"; js "audio/mp3"; js "audio/m4a";
   js "audio/webm"; js "audio/mp4"; js "audio/ogg"; js "audio/flac"].

(** [list.includes(x)] for a string [x]. *)
Definition includes (l : list jsstring) (x : jsstring) : bool :=
  existsb (str_eqb x) l.

(** [fileFilter]: the callback gets [true], or the error. *)
Definition fileFilter (mimetype : jsstring) : completion bool :=
  if includes allowedTypes mimetype then Normal true
  else Throw (Error (js "Invalid file type. Only audio files are allowed.")).

(** [filename]: [Date.now() + '-' + file.originalname]. *)
Definition storage_filename (now : N) (originalname : jsstring) : jsstring :=
  number_to_string (Int (Z.of_N now)) ++ js "-" ++ originalname.

Definition fileSize_limit : N := 50 * 1024 * 1024.

(* ================================================================= *)
(** * Vocabulary of the specification *)

(** ** Fenced replies *)

(** A reply wrapped in fences. *)
Definition fenced (x : jsstring) : jsstring :=
  fence ++ js "json" ++ [LF] ++ x ++ [LF] ++ fence.

(** [occurs p s]: [p] occurs somewhere in [s]. *)
Fixpoint occurs (p s : jsstring) : bool :=
  match s with
  | [] => starts_with p []
  | _ :: s' => starts_with p s || occurs p s'
  end.

(** ** The task list and its counters *)

(** The property [k] of a value as the specification reads it: an own
    property of an object, [undefined] otherwise. *)
Definition field (o : value) (k : string) : value :=
  match o with
  | VObj ps => match own (js k) ps with Some v => v | None => VUndefined end
  | _ => VUndefined
  end.

(** The three classes of tasks the counters count. *)
Definition high_priority (t : value) : bool :=
  strict_eq_str (field t "priority") (js "high").

Definition unassigned (t : value) : bool :=
  strict_eq_str (field t "assignedTo") (js "Unassigned").

Definition assigned (t : value) : bool := negb (unassigned t).

Definition count (p : value -> bool) (ts : list value) : nat :=
  length (filter p ts).

(** The four counters of a task list equal their recomputation from its
    tasks. *)
Definition counters_recomputed (r : value) : Prop :=
  exists (ts : list value) (total high asg unasg : nat),
    field r "tasks" = VArr ts /\
    field r "totalTasks" = VNum (num_of_nat total) /\
    field r "highPriorityCount" = VNum (num_of_nat high) /\
    field r "assignedCount" = VNum (num_of_nat asg) /\
    field r "unassignedCount" = VNum (num_of_nat unasg) /\
    total = length ts /\
    high = count high_priority ts /\
    asg = count assigned ts /\
    (asg + unasg = total)%nat.

Definition nullish (v : value) : bool :=
  match v with VUndefined | VNull => true | _ => false end.

(** A decoded reply on which the four assignments go through: an object
    whose [tasks] is an array without [null]. *)
Definition countable (data : value) : bool :=
  match field data "tasks" with
  | VArr ts => forallb (fun t => negb (nullish t)) ts
  | _ => false
  end.

(** The decoded object with the four counters written into it. *)
Definition with_counts (data : value) : value :=
  match data, field data "tasks" with
  | VObj ps, VArr ts =>
      VObj (obj_set (js "unassignedCount") (VNum (num_of_nat (count unassigned ts)))
           (obj_set (js "assignedCount") (VNum (num_of_nat (count assigned ts)))
           (obj_set (js "highPriorityCount") (VNum (num_of_nat (count high_priority ts)))
           (obj_set (js "totalTasks") (VNum (num_of_nat (length ts))) ps))))
  | _, _ => data
  end.

(** ** The four analysis kinds *)

Inductive kind := Summary | Tasks | Improvements | FactCheck.

Definition prompt_of (k : kind) (transcription : jsstring) : jsstring :=
  match k with
  | Summary => summary_prompt transcription
  | Tasks => tasks_prompt transcription
  | Improvements => improvements_prompt transcription
  | FactCheck => factcheck_prompt transcription
  end.

Definition analyse (k : kind) : Env -> jsstring -> value :=
  match k with
  | Summary => generateMeetingSummary
  | Tasks => extractTasks
  | Improvements => generateImprovements
  | FactCheck => factCheckTranscription
  end.

(** What the model answers to the prompt of an analysis. *)
Definition reply (env : Env) (k : kind) (transcription : jsstring) : completion jsstring :=
  generateContent env [PText (prompt_of k transcription)].

(** The object an analysis returns when the reply does not decode, and the
    one it returns when the model call throws. *)
Definition fallback (k : kind) : value :=
  match k with
  | Summary => summary_fallback
  | Tasks => tasks_fallback
  | Improvements => improvements_fallback
  | FactCheck => factcheck_fallback
  end.

Definition error_object (k : kind) (e : exn) : value :=
  match k with
  | Summary => summary_error e
  | Tasks => tasks_error e
  | Improvements => improvements_error e
  | FactCheck => factcheck_error e
  end.

Definition analysis_of (k : kind) (m : Meeting) : value :=
  match k with
  | Summary => summary m
  | Tasks => tasks m
  | Improvements => improvements m
  | FactCheck => factCheck m
  end.

(** What an analysis makes of a reply that decodes to [data]: the task
    extraction writes the counters into it when it can and falls back when
    it cannot; the other three return it as it is. *)
Definition decoded (k : kind) (data : value) : value :=
  match k with
  | Tasks => if countable data then with_counts data else tasks_fallback
  | _ => data
  end.

(** The status fields of a fallback object are neutral. *)
Definition neutral (k : kind) (v : value) : Prop :=
  match k with
  | Summary => field v "overview" = str "Failed to parse summary"
  | Tasks =>
      field v "totalTasks" = num 0 /\ field v "highPriorityCount" = num 0 /\
      field v "assignedCount" = num 0 /\ field v "unassignedCount" = num 0
  | Improvements =>
      field v "effectivenessScore" = num 0 /\
      field v "scoreRationale" = str "Unable to analyze"
  | FactCheck =>
      field (field v "transcriptionQuality") "rating" = str "unknown" /\
      field (field v "transcriptionQuality") "score" = num 0
  end.

(** ** A processed upload *)

(** The transcription step of an upload, and whether it produced a text. *)
Definition transcribed (env : Env) (f : File) (s : Server) : completion jsstring :=
  fst (transcribeWithGemini env (path f) s).

(** The meeting an upload leads to, and the body of the answer. *)
Definition meeting_of (env : Env) (f : File) (t : jsstring) : Meeting :=
  {| id := now_string env;
     filename := originalname f;
     timestamp := toISOString env;
     transcription := t;
     summary := generateMeetingSummary env t;
     tasks := extractTasks env t;
     improvements := generateImprovements env t;
     factCheck := factCheckTranscription env t |}.

Definition success_body (f : File) (m : Meeting) : value :=
  VObj [(js "success", VBool true);
        (js "meetingId", VStr (id m));
        (js "transcription", VStr (transcription m));
        (js "summary", summary m);
        (js "tasks", tasks m);
        (js "improvements", improvements m);
        (js "factCheck", factCheck m);
        (js "filename", VStr (originalname f));
        (js "filesize", num (Z.of_N (size f)));
        (js "timestamp", VStr (timestamp m))].

(** The state after a successful upload: the meeting is stored under its
    id and the uploaded file is gone. *)
Definition stored (m : Meeting) (f : File) (s : Server) : Server :=
  {| meetingDatabase := Map.set (id m) m (meetingDatabase s);
     files := remove_file (path f) (files s) |}.

(** The answer of the [catch] block. *)
Definition failure (msg : jsstring) : Response :=
  status_json 500 (VObj [(js "error", str "Failed to process audio file");
                         (js "details", VStr msg)]).

(** [put]: what the upload endpoint does to the map. *)
Definition put (db : Map.t) (m : Meeting) : Map.t := Map.set (id m) m db.

(** The entry of a meeting in the listing when its summary is the text
    [s]. *)
Definition entry_of (m : Meeting) (s : jsstring) : value :=
  VObj [(js "id", VStr (id m));
        (js "filename", VStr (filename m));
        (js "timestamp", VStr (timestamp m));
        (js "summary", VStr (substring0 200 s ++ js "..."))].

(** The text of a summary that is a string, and the listing the store
    answers with when every summary is one. *)
Definition summary_text (m : Meeting) : jsstring :=
  match summary m with VStr s => s | _ => [] end.

Definition is_text (v : value) : bool :=
  match v with VStr _ => true | _ => false end.

Definition listing (ms : list Meeting) : Response :=
  json (VObj [(js "success", VBool true);
              (js "meetings", VArr (rev (map (fun m => entry_of m (summary_text m)) ms)))]).

Definition not_a_function (callee : string) : exn :=
  TypeError (js callee ++ js " is not a function").

(** The largest time value of ECMAScript, in milliseconds. *)
Definition max_time_value : N := 8640000000000000.

(* ================================================================= *)
(** * Scenarios *)

(** Concrete requests: a scripted model that recognises each prompt by its
    first sixty code units, one uploaded file, and the replies of a
    healthy run. *)
Module Scenario.

Record Script := {
  on_transcribe : completion jsstring;
  on_summary : completion jsstring;
  on_tasks : completion jsstring;
  on_improvements : completion jsstring;
  on_factcheck : completion jsstring;
  on_chat : completion jsstring
}.

Definition head_of (k : kind) : jsstring := firstn 60 (prompt_of k []).

Definition model (sc : Script) (parts : list Part) : completion jsstring :=
  match parts with
  | [PText _; PInline _ _] => on_transcribe sc
  | [PText p] =>
      if starts_with (head_of Summary) p then on_summary sc
      else if starts_with (head_of Tasks) p then on_tasks sc
      else if starts_with (head_of Improvements) p then on_improvements sc
      else if starts_with (head_of FactCheck) p then on_factcheck sc
      else on_chat sc
  | _ => Throw (Error (js "unexpected request"))
  end.

Definition env_at (now : N) (sc : Script) : Env :=
  {| generateContent := model sc;
     Date_now := now;
     toISOString := js "2023-11-14T22:13:20.000Z" |}.

Definition upload : File :=
  {| path := js "uploads/1700000000000-standup.wav";
     originalname := js "standup.wav";
     size := 4 |}.

Definition second_upload : File :=
  {| path := js "uploads/1700000000001-retro.mp3";
     originalname := js "retro.mp3";
     size := 3 |}.

Definition boot : Server :=
  {| meetingDatabase := Map.empty;
     files := [(path upload, [82; 73; 70; 70]%N);
               (path second_upload, [73; 68; 51]%N)] |}.

Definition transcript : jsstring := js "Speaker 1: Let's ship by Friday.".

Definition healthy : Script :=
  {| on_transcribe := Normal transcript;
     on_summary :=
       Normal (fenced (jq "{~overview~: ~The team agreed to ship by Friday.~, ~keyPoints~: [], ~decisions~: [], ~insights~: [], ~outcomes~: [], ~nextSteps~: []}"));
     on_tasks :=
       Normal (fenced (jq "{~tasks~: [{~id~: 1, ~task~: ~Ship the release~, ~assignedTo~: ~Unassigned~, ~priority~: ~high~}, {~id~: 2, ~task~: ~Write notes~, ~assignedTo~: ~Dana~, ~priority~: ~low~}], ~followUpItems~: [], ~totalTasks~: 7, ~highPriorityCount~: 7, ~assignedCount~: 7, ~unassignedCount~: 7}"));
     on_improvements :=
       Normal (jq "{~effectivenessScore~: 7, ~scoreRationale~: ~Short and focused~, ~strengths~: [], ~improvements~: {}, ~recommendations~: [], ~bestPractices~: []}");
     on_factcheck :=
       Normal (jq "{~transcriptionQuality~: {~rating~: ~good~, ~score~: 85, ~issues~: []}, ~potentialErrors~: [], ~factualClaims~: [], ~inconsistencies~: [], ~dataPoints~: [], ~technicalTerms~: [], ~recommendations~: []}");
     on_chat := Normal (js "The team decided to ship by Friday.") |}.

(** The healthy run with one reply changed. *)
Definition with_reply (k : kind) (r : completion jsstring) (sc : Script) : Script :=
  {| on_transcribe := on_transcribe sc;
     on_summary := match k with Summary => r | _ => on_summary sc end;
     on_tasks := match k with Tasks => r | _ => on_tasks sc end;
     on_improvements := match k with Improvements => r | _ => on_improvements sc end;
     on_factcheck := match k with FactCheck => r | _ => on_factcheck sc end;
     on_chat := on_chat sc |}.

Definition with_transcription (r : completion jsstring) (sc : Script) : Script :=
  {| on_transcribe := r;
     on_summary := on_summary sc;
     on_tasks := on_tasks sc;
     on_improvements := on_improvements sc;
     on_factcheck := on_factcheck sc;
     on_chat := on_chat sc |}.

Definition epoch : N := 1700000000000.

Definition env : Env := env_at epoch healthy.

(** A reply that is not JSON, and a model that cannot be reached. *)
Definition apology : completion jsstring :=
  Normal (js "I'm sorry, I cannot analyze this transcription.").

Definition unreachable : completion jsstring :=
  Throw (Error (js "fetch failed")).

(** The healthy run in which the reply to one analysis is not JSON, in
    which one analysis cannot reach the model, and in which the task
    extraction gets an object without [tasks]. *)
Definition malformed (k : kind) : Env := env_at epoch (with_reply k apology healthy).

Definition down (k : kind) : Env := env_at epoch (with_reply k unreachable healthy).

Definition no_tasks_reply : jsstring := jq "{~followUpItems~: [~Send the minutes~]}".

Definition no_tasks : Env := env_at epoch (with_reply Tasks (Normal no_tasks_reply) healthy).

(** The healthy run in which the transcription comes back empty. *)
Definition silent : Env := env_at epoch (with_transcription (Normal []) healthy).

(** The state after the healthy upload, and after a second one a
    millisecond later. *)
Definition after_one : Server := snd (process_audio env (Some upload) boot).

Definition later : Env := env_at (epoch + 1) healthy.

Definition after_two : Server := snd (process_audio later (Some second_upload) after_one).

(** A chat request about the first meeting. *)
Definition question : value :=
  VObj [(js "message", str "What was decided?");
        (js "meetingId", str "1700000000000")].

End Scenario.

(* ================================================================= *)
(** * Further vocabulary *)

(** What the [catch] of [transcribeWithGemini] makes of the outcome of the
    model call. *)
Definition rethrown (c : completion jsstring) : completion jsstring :=
  match c with
  | Normal text => Normal text
  | Throw error =>
      Throw (Error (js "Failed to transcribe audio with Gemini: " ++ message error))
  end.

(** The MIME type sent with the audio of a file. *)
Definition mime_of (filePath : jsstring) : jsstring :=
  match assoc (toLowerCase (extname filePath)) mimeTypes with
  | Some m => m
  | None => js "audio/mpeg"
  end.

(** A meeting map in which every meeting stands under its own id, each id
    once. *)
Definition well_keyed (db : Map.t) : Prop :=
  NoDup (Map.keys db) /\ Forall (fun e => id (snd e) = fst e) db.

(** The names of the four counters. *)
Definition counter_names : list jsstring :=
  [js "totalTasks"; js "highPriorityCount"; js "assignedCount"; js "unassignedCount"].

(** The answer of the chat endpoint to a model outcome. *)
Definition chat_answer (c : completion jsstring) : Response :=
  match c with
  | Normal text => json (VObj [(js "success", VBool true); (js "response", VStr text)])
  | Throw error =>
      status_json 500 (VObj [(js "error", str "Failed to process chat message");
                             (js "details", VStr (message error))])
  end.

(** The path multer gives an upload: destination and file name, joined
    (POSIX). *)
Definition upload_path (now : N) (originalname : jsstring) : jsstring :=
  js "uploads/" ++ storage_filename now originalname.

(** The part of a name from its last dot on, empty when it has no dot. *)
Definition suffix (name : jsstring) : jsstring :=
  match from_last 46 name with Some e => e | None => [] end.

(** ** The fallback objects against the data model *)

(** The value at the end of a path of property names. *)
Fixpoint at_path (v : value) (p : list string) : value :=
  match p with
  | [] => v
  | k :: p' => at_path (field v k) p'
  end.

(** The list-valued fields of each analysis kind as the data model of the
    specification lists them (this definition follows the specification,
    not the code), each as the path to it, under the property names of the
    prompts. *)
Definition documented_lists (k : kind) : list (list string) :=
  match k with
  | Summary =>
      [["participants"]; ["keyPoints"]; ["decisions"]; ["insights"]; ["outcomes"];
       ["nextSteps"]]
  | Tasks => [["tasks"]; ["followUpItems"]]
  | Improvements =>
      [["strengths"];
       ["improvements"; "structure"]; ["improvements"; "communication"];
       ["improvements"; "participation"]; ["improvements"; "timeManagement"];
       ["improvements"; "decisionMaking"];
       ["recommendations"]; ["bestPractices"]]
  | FactCheck =>
      [["transcriptionQuality"; "issues"]; ["potentialErrors"]; ["factualClaims"];
       ["inconsistencies"]; ["dataPoints"]; ["technicalTerms"]; ["recommendations"]]
  end%string.

(** The documented lists that the fallback objects of the code do not
    have. *)
Definition omitted_lists (k : kind) : list (list string) :=
  match k with
  | Summary => [["participants"]]
  | Improvements =>
      [["improvements"; "structure"]; ["improvements"; "communication"];
       ["improvements"; "participation"]; ["improvements"; "timeManagement"];
       ["improvements"; "decisionMaking"]]
  | Tasks | FactCheck => []
  end%string.

Fixpoint path_eqb (p q : list string) : bool :=
  match p, q with
  | [], [] => true
  | a :: p', b :: q' => String.eqb a b && path_eqb p' q'
  | _, _ => false
  end.

Definition omitted (k : kind) (p : list string) : bool :=
  existsb (path_eqb p) (omitted_lists k).

(** ** What the replace leaves out *)

(** The four texts the regular expression matches. *)
Definition markers : list jsstring :=
  [fence ++ js "json" ++ [LF]; fence ++ js "json"; LF :: fence; fence].

(** [leaves_out x y]: [y] is [x] with some pieces left out, each piece one
    of the markers, and every other code unit kept, in its order. *)
Inductive leaves_out : jsstring -> jsstring -> Prop :=
| leaves_out_nil : leaves_out [] []
| leaves_out_keep (c : N) (x y : jsstring) :
    leaves_out x y -> leaves_out (c :: x) (c :: y)
| leaves_out_drop (m x y : jsstring) :
    In m markers -> leaves_out x y -> leaves_out (m ++ x) y.

(** ** A file system that refuses *)

(** The disk on which the file [p] cannot be removed. *)
Definition locked (p : jsstring) : Disk :=
  {| unlink_after_store := Some (eperm (js "unlink") p);
     unlink_in_catch := Some (eperm (js "unlink") p) |}.

(** The answer to a request without a file. *)
Definition no_file : Response :=
  status_json 400 (VObj [(js "error", str "No audio file uploaded")]).
Unset Implicit Arguments.

(* ================================================================= *)
(** * The model at work *)

(** [JSON.parse] on a few texts: nesting and escapes, numbers in their
    several spellings, a repeated name (the last value, at the first
    place), names that are array indices (first, in numeric order), and
    texts that are not JSON. *)
Example parse_nested :
  JSON.parse (jq " {~a~: [1, true, null, ~x\nA~], ~b~: {~c~: []}} ")
  = Normal (VObj [(js "a", VArr [num 1; VBool true; VNull; VStr [120; 10; 65]%N]);
                  (js "b", VObj [(js "c", VArr [])])]).
Proof. reflexivity. Qed.

Example parse_numbers :
  JSON.parse (jq "[0, -0, 12, 2.50, 1e3, 25e-1, -0.001]")
  = Normal (VArr [num 0; num 0; num 12; VNum (Dec 25 1); num 1000;
                  VNum (Dec 25 1); VNum (Dec (-1) 3)]).
Proof. reflexivity. Qed.

Example parse_repeated_name :
  JSON.parse (jq "{~a~: 1, ~b~: 2, ~a~: 3, ~7~: 4, ~2~: 5}")
  = Normal (VObj [(js "2", num 5); (js "7", num 4); (js "a", num 3); (js "b", num 2)]).
Proof. reflexivity. Qed.

Example parse_rejects :
  map JSON.parse [[]; jq "[1,]"; jq "{~a~: 01}"; jq "{'a': 1}"; jq "[1 2]";
                  jq "{~a~ 1}"; jq "nul"; jq "1true"; jq "~open"; jq "{} {}";
                  js "Here is the summary you asked for."]
  = repeat (Throw JSON.syntax_error) 11.
Proof. reflexivity. Qed.

(** [Number::toString]. *)
Example numbers_print :
  map number_to_string [Int 0; Int (-15); Dec 25 1; Dec (-1) 3; Dec 1 7; Dec 123 7;
                        Int (10 ^ 20); Int (10 ^ 21); Int (123 * 10 ^ 21)]
  = [js "0"; js "-15"; js "2.5"; js "-0.001"; js "1e-7"; js "0.0000123";
     js "100000000000000000000"; js "1e+21"; js "1.23e+23"].
Proof. reflexivity. Qed.

(** [ToString] of an array: elements separated by commas, [null] as
    nothing, objects as [[object Object]]. *)
Example array_prints :
  to_string (VArr [num 1; VNull; VArr [str "a"; VObj []]; VBool false])
  = Normal (js "1,,a,[object Object],false").
Proof. reflexivity. Qed.

(** The global replace: fences around a reply, a fence in the middle of a
    text, and a line feed before the opening fence, which makes the second
    alternative match first and leaves the language tag behind. *)
Example strip_fences_examples :
  strip_fences (fenced (jq "{~a~: 1}")) = jq "{~a~: 1}" /\
  strip_fences (js "a```b```jsonc") = js "abc" /\
  strip_fences (js "Sure:" ++ [LF] ++ fenced (js "{}")) = js "Sure:json" ++ [LF] ++ js "{}".
Proof. repeat split. Qed.

Example extname_examples :
  map extname [js "uploads/17-standup.WAV"; js "a/b.c/d"; js ".bashrc"; js "x/..";
               js "a.b."; js "x.tar.gz/"]
  = [js ".WAV"; []; []; []; js "."; js ".gz"].
Proof. reflexivity. Qed.

Example base64_examples :
  map base64 [[77; 97; 110]; [77; 97]; [77]]%N = [js "TWFu"; js "TWE="; js "TQ=="].
Proof. reflexivity. Qed.

(** The healthy upload of the scenario: the answer, and what is left of
    the upload directory. *)
Example healthy_upload :
  status (fst (process_audio Scenario.env (Some Scenario.upload) Scenario.boot)) = 200%N /\
  field (body (fst (process_audio Scenario.env (Some Scenario.upload) Scenario.boot)))
    "tasks"
  = VObj [(js "tasks",
           VArr [VObj [(js "id", num 1); (js "task", str "Ship the release");
                       (js "assignedTo", str "Unassigned"); (js "priority", str "high")];
                 VObj [(js "id", num 2); (js "task", str "Write notes");
                       (js "assignedTo", str "Dana"); (js "priority", str "low")]]);
          (js "followUpItems", VArr []);
          (js "totalTasks", num 2);
          (js "highPriorityCount", num 1);
          (js "assignedCount", num 1);
          (js "unassignedCount", num 1)] /\
  map fst (files Scenario.after_one) = [js "uploads/1700000000001-retro.mp3"].
Proof. repeat split. Qed.

(* ================================================================= *)
(** * Basic facts *)

Lemma str_eqb_eq (a b : jsstring) : str_eqb a b = true <-> a = b.
Proof.
  revert b; induction a as [|x a IH]; intros [|y b]; simpl; split;
    try congruence; try reflexivity.
  - intros H. apply andb_true_iff in H as [Hx Hab].
    apply N.eqb_eq in Hx. apply IH in Hab. congruence.
  - intros H. injection H as -> ->.
    rewrite N.eqb_refl. simpl. now apply IH.
Qed.

Lemma str_eqb_refl (a : jsstring) : str_eqb a a = true.
Proof. now apply str_eqb_eq. Qed.

Lemma str_eqb_neq (a b : jsstring) : str_eqb a b = false <-> a <> b.
Proof.
  split.
  - intros H E. apply str_eqb_eq in E. congruence.
  - intros H. destruct (str_eqb a b) eqn:E; [|reflexivity].
    apply str_eqb_eq in E. contradiction.
Qed.

Lemma starts_with_app (p s : jsstring) : starts_with p (p ++ s) = true.
Proof. induction p as [|x p IH]; simpl; [reflexivity|]. now rewrite N.eqb_refl. Qed.

Lemma starts_with_split (p s : jsstring) :
  starts_with p s = true -> exists r, s = p ++ r.
Proof.
  revert s; induction p as [|x p IH]; intros s H.
  - now exists s.
  - destruct s as [|y s]; simpl in H; [discriminate|].
    apply andb_true_iff in H as [Hx Hp]. apply N.eqb_eq in Hx. subst y.
    destruct (IH _ Hp) as [r ->]. now exists r.
Qed.

(* ================================================================= *)
(** * The response parser and code fences *)

Lemma occurs_split (p s : jsstring) :
  occurs p s = true -> exists a b, s = a ++ p ++ b.
Proof.
  induction s as [|c s IH]; simpl; intros H.
  - apply starts_with_split in H as [r ->]. now exists [], r.
  - apply orb_true_iff in H as [H|H].
    + apply starts_with_split in H as [r ->]. now exists [], r.
    + destruct (IH H) as (a & b & ->). now exists (c :: a), b.
Qed.

Lemma occurs_head (p s : jsstring) : starts_with p s = true -> occurs p s = true.
Proof.
  destruct s as [|c s]; intros H; [exact H|].
  change (occurs p (c :: s)) with (starts_with p (c :: s) || occurs p s)%bool.
  now rewrite H.
Qed.

Lemma occurs_app (p a b : jsstring) : occurs p (a ++ p ++ b) = true.
Proof.
  induction a as [|c a IH].
  - apply occurs_head. exact (starts_with_app p b).
  - change (occurs p ((c :: a) ++ p ++ b))
      with (starts_with p (c :: a ++ p ++ b) || occurs p (a ++ p ++ b))%bool.
    rewrite IH. apply orb_true_r.
Qed.

Lemma occurs_false (p s : jsstring) :
  occurs p s = false -> forall a b, s <> a ++ p ++ b.
Proof. intros H a b ->. now rewrite occurs_app in H. Qed.

Lemma no_occurrence (p s : jsstring) :
  (forall a b, s <> a ++ p ++ b) -> occurs p s = false.
Proof.
  intros H. destruct (occurs p s) eqn:E; [|reflexivity].
  apply occurs_split in E as (a & b & ->). now destruct (H a b).
Qed.

(** A text that does not begin with a fence does not begin with one when
    the closing fence is put behind it. *)
Lemma no_fence_at_head (s : jsstring) :
  starts_with fence s = false -> starts_with fence (s ++ LF :: fence) = false.
Proof.
  change fence with [96; 96; 96]%N. change LF with 10%N.
  destruct s as [|a [|b [|c s]]]; cbn [starts_with app]; intros H.
  - reflexivity.
  - change (N.eqb 96 10) with false. cbn. apply andb_false_r.
  - change (N.eqb 96 10) with false. cbn. now rewrite andb_false_r, andb_false_r.
  - exact H.
Qed.

Lemma match_fence_none (c : N) (s : jsstring) :
  starts_with fence (c :: s) = false ->
  starts_with fence s = false ->
  match_fence ((c :: s) ++ LF :: fence) = None.
Proof.
  intros Hc Hs. unfold match_fence.
  assert (H1 : starts_with fence ((c :: s) ++ LF :: fence) = false)
    by now apply no_fence_at_head.
  assert (H2 : starts_with fence (s ++ LF :: fence) = false)
    by now apply no_fence_at_head.
  assert (H3 : starts_with (fence ++ js "json") ((c :: s) ++ LF :: fence) = false).
  { destruct (starts_with (fence ++ js "json") ((c :: s) ++ LF :: fence)) eqn:E;
      [|reflexivity].
    apply starts_with_split in E as [r E]. rewrite E, <- app_assoc in H1.
    now rewrite starts_with_app in H1. }
  rewrite H3.
  assert (H4 : starts_with (LF :: fence) ((c :: s) ++ LF :: fence) = false).
  { change ((c :: s) ++ LF :: fence) with (c :: (s ++ LF :: fence)).
    change (starts_with (LF :: fence) (c :: (s ++ LF :: fence)))
      with (N.eqb LF c && starts_with fence (s ++ LF :: fence))%bool.
    rewrite H2. apply andb_false_r. }
  now rewrite H4, H1.
Qed.

Lemma strip_closing_fence (x : jsstring) :
  occurs fence x = false -> strip_fences_from 0 (x ++ LF :: fence) = x.
Proof.
  induction x as [|c x IH]; intros H.
  - reflexivity.
  - simpl in H. apply orb_false_iff in H as [Hc Hx].
    assert (Hs : starts_with fence x = false).
    { destruct x; [reflexivity|]. simpl in Hx.
      now apply orb_false_iff in Hx as [Hx _]. }
    change ((c :: x) ++ LF :: fence) with (c :: (x ++ LF :: fence)).
    unfold strip_fences_from; fold strip_fences_from.
    change (c :: (x ++ LF :: fence)) with ((c :: x) ++ LF :: fence).
    rewrite (match_fence_none c x Hc Hs).
    f_equal. now apply IH.
Qed.

Lemma strip_fences_fenced (x : jsstring) :
  occurs fence x = false -> strip_fences (fenced x) = x.
Proof.
  intros H. unfold strip_fences, fenced.
  change (fence ++ js "json" ++ [LF] ++ x ++ [LF] ++ fence)
    with (96 :: 96 :: 96 :: 106 :: 115 :: 111 :: 110 :: 10 :: (x ++ LF :: fence))%N.
  cbn -[strip_fences_from app fence] .
  now apply strip_closing_fence.
Qed.

(** X19.  Response parser round trip, where it holds: for every text [x]
    in which the fence marker does not occur (in particular for every such
    JSON object text), decoding [x] wrapped between the opening fence with
    its language tag and the closing fence gives the same completion, value
    or failure, as decoding [x] directly. *)
Theorem parse_reply_fenced (x : jsstring) :
  (forall a b, x <> a ++ fence ++ b) ->
  parse_reply (fenced x) = JSON.parse x.
Proof.
  intros H. unfold parse_reply.
  now rewrite strip_fences_fenced by now apply no_occurrence.
Qed.

Lemma parse_reply_fenced_witness :
  parse_reply (fenced (jq "{~tasks~: []}")) = JSON.parse (jq "{~tasks~: []}").
Proof.
  apply parse_reply_fenced. apply occurs_false. reflexivity.
Defined.

(** C3, at the failing input.  The replacement is global, so a fence
    marker inside a string of the JSON text is removed with the two that
    wrap the reply.  The object text [{"a":"```"}] is valid JSON and
    decodes to an object whose property is the marker; wrapped in fences
    it decodes to an object whose property is the empty string: the round
    trip does not return the structure of the unwrapped text. *)
Theorem fence_inside_string_is_stripped :
  JSON.parse (jq "{~a~:~```~}") = Normal (VObj [(js "a", VStr (js "```"))]) /\
  parse_reply (fenced (jq "{~a~:~```~}")) = Normal (VObj [(js "a", VStr [])]) /\
  parse_reply (fenced (jq "{~a~:~```~}")) <> JSON.parse (jq "{~a~:~```~}").
Proof.
  split; [reflexivity|]. split; [reflexivity|].
  vm_compute. discriminate.
Qed.

(* ================================================================= *)
(** * Objects: reading after writing *)

Lemma own_replace_same (k : jsstring) (v : value) (ps : list (jsstring * value)) :
  own k ps <> None -> own k (replace_own k v ps) = Some v.
Proof.
  induction ps as [|[k' v'] ps IH]; simpl; intros H; [congruence|].
  destruct (str_eqb k k') eqn:E; simpl; rewrite E; [reflexivity|now apply IH].
Qed.

Lemma own_replace_other (k k' : jsstring) (v : value) (ps : list (jsstring * value)) :
  str_eqb k' k = false -> own k' (replace_own k v ps) = own k' ps.
Proof.
  intros Hk. induction ps as [|[k0 v0] ps IH]; simpl; [reflexivity|].
  destruct (str_eqb k k0) eqn:E; simpl.
  - apply str_eqb_eq in E. subst k0. now rewrite Hk.
  - destruct (str_eqb k' k0); [reflexivity|exact IH].
Qed.

Lemma own_insert_same (i : N) (k : jsstring) (v : value) (ps : list (jsstring * value)) :
  own k ps = None -> own k (insert_index i k v ps) = Some v.
Proof.
  induction ps as [|[k' v'] ps IH]; simpl; intros H.
  - now rewrite str_eqb_refl.
  - destruct (str_eqb k k') eqn:E; [discriminate|].
    destruct (array_index k') as [j|]; [destruct (N.ltb j i)|]; simpl;
      rewrite ?E, ?str_eqb_refl; auto.
Qed.

Lemma own_insert_other (i : N) (k k' : jsstring) (v : value) (ps : list (jsstring * value)) :
  str_eqb k' k = false -> own k' (insert_index i k v ps) = own k' ps.
Proof.
  intros Hk. induction ps as [|[k0 v0] ps IH]; simpl.
  - now rewrite Hk.
  - destruct (array_index k0) as [j|]; [destruct (N.ltb j i)|]; simpl;
      rewrite ?Hk; try reflexivity.
    now rewrite IH.
Qed.

Lemma own_app_same (k : jsstring) (v : value) (ps : list (jsstring * value)) :
  own k ps = None -> own k (ps ++ [(k, v)]) = Some v.
Proof.
  induction ps as [|[k' v'] ps IH]; simpl; intros H.
  - now rewrite str_eqb_refl.
  - destruct (str_eqb k k'); [discriminate|now apply IH].
Qed.

Lemma own_app_other (k k' : jsstring) (v : value) (ps : list (jsstring * value)) :
  str_eqb k' k = false -> own k' (ps ++ [(k, v)]) = own k' ps.
Proof.
  intros Hk. induction ps as [|[k0 v0] ps IH]; simpl.
  - now rewrite Hk.
  - destruct (str_eqb k' k0); [reflexivity|exact IH].
Qed.

(** A property just written reads back. *)
Lemma own_obj_set_same (k : jsstring) (v : value) (ps : list (jsstring * value)) :
  own k (obj_set k v ps) = Some v.
Proof.
  unfold obj_set. destruct (own k ps) eqn:E.
  - apply own_replace_same. congruence.
  - destruct (array_index k); [now apply own_insert_same|now apply own_app_same].
Qed.

(** Writing one property leaves the others as they were. *)
Lemma own_obj_set_other (k k' : jsstring) (v : value) (ps : list (jsstring * value)) :
  str_eqb k' k = false -> own k' (obj_set k v ps) = own k' ps.
Proof.
  intros Hk. unfold obj_set. destruct (own k ps).
  - now apply own_replace_other.
  - destruct (array_index k); [now apply own_insert_other|now apply own_app_other].
Qed.

(* ================================================================= *)
(** * The task list and its counters *)

Lemma get_field (t : value) (k : string) :
  nullish t = false -> str_eqb (js k) (js "length") = false ->
  get t (js k) = Normal (field t k).
Proof.
  intros Hn Hk. destruct t; simpl in *; try discriminate; try reflexivity;
    now rewrite Hk.
Qed.

Lemma get_nullish (t : value) (k : jsstring) :
  nullish t = true -> exists e, get t k = Throw e.
Proof. destruct t; simpl; try discriminate; eauto. Qed.

(** The first assignment of [calculate_counts] is reached only when the
    decoded value is an object. *)
Lemma counts_are_assigned_to_objects (data ts n : value) :
  get data (js "tasks") = Normal ts ->
  get ts (js "length") = Normal n ->
  exists ps, data = VObj ps.
Proof.
  destruct data as [| |b|m|s|xs|ps]; cbn [get]; intros H1 H2;
    try discriminate; try (injection H1 as <-; discriminate H2).
  now exists ps.
Qed.

(** [filter] with a callback that reads the property [k] throws when an
    element is [null], and otherwise keeps the elements the predicate of
    the specification keeps. *)
Lemma filterM_throws (k : string) (g : value -> bool) (ts : list value) :
  forallb (fun t => negb (nullish t)) ts = false ->
  exists e, filterM (fun t => p <- get t (js k) ;; Normal (g p)) ts = Throw e.
Proof.
  induction ts as [|t ts IH]; cbn [forallb filterM]; intros H; [discriminate|].
  destruct (nullish t) eqn:Ht.
  - destruct (get_nullish t (js k) Ht) as [e He]. rewrite He. now exists e.
  - destruct (get t (js k)) as [p|e]; [|now exists e]. cbn [bind].
    destruct (IH H) as [e He]. rewrite He. now exists e.
Qed.

Lemma filterM_keeps (k : string) (g : value -> bool) (ts : list value) :
  str_eqb (js k) (js "length") = false ->
  forallb (fun t => negb (nullish t)) ts = true ->
  filterM (fun t => p <- get t (js k) ;; Normal (g p)) ts =
  Normal (filter (fun t => g (field t k)) ts).
Proof.
  intros Hk. induction ts as [|t ts IH]; cbn [forallb filterM filter]; intros H;
    [reflexivity|].
  apply andb_true_iff in H as [Ht Hts]. apply negb_true_iff in Ht.
  rewrite (get_field t k Ht Hk). cbn [bind]. rewrite (IH Hts). cbn [bind].
  now destruct (g (field t k)).
Qed.

Lemma filter_complement {A} (p : A -> bool) (l : list A) :
  (length (filter (fun x => negb (p x)) l) + length (filter p l) = length l)%nat.
Proof.
  induction l as [|x l IH]; simpl; [reflexivity|].
  destruct (p x); simpl; lia.
Qed.

Lemma count_where_keeps (ps : list (jsstring * value)) (ts : list value)
      (k : string) (negated : bool) (s : jsstring) :
  own (js "tasks") ps = Some (VArr ts) ->
  forallb (fun t => negb (nullish t)) ts = true ->
  str_eqb (js k) (js "length") = false ->
  count_where (VObj ps) (js k) negated s =
  Normal (VNum (num_of_nat (count (fun t => if negated
                                            then negb (strict_eq_str (field t k) s)
                                            else strict_eq_str (field t k) s) ts))).
Proof.
  intros Hts Hall Hk. unfold count_where. cbn [get]. rewrite Hts. cbn [bind call_filter].
  pose proof (filterM_keeps k
                (fun p => if negated then negb (strict_eq_str p s) else strict_eq_str p s)
                ts Hk Hall) as E.
  cbv beta in E. rewrite E. reflexivity.
Qed.

Lemma count_where_throws (ps : list (jsstring * value)) (tv : value)
      (k : string) (negated : bool) (s : jsstring) :
  own (js "tasks") ps = Some tv ->
  match tv with
  | VArr ts => forallb (fun t => negb (nullish t)) ts = false
  | _ => True
  end ->
  exists e, count_where (VObj ps) (js k) negated s = Throw e.
Proof.
  intros Hts H. unfold count_where. cbn [get]. rewrite Hts. cbn [bind].
  destruct tv; cbn [call_filter bind]; eauto.
  destruct (filterM_throws k
              (fun p => if negated then negb (strict_eq_str p s) else strict_eq_str p s)
              items H) as [e He].
  cbv beta in He. rewrite He. now exists e.
Qed.

Lemma own_tasks_kept (k : string) (v x : value) (ps : list (jsstring * value)) :
  str_eqb (js "tasks") (js k) = false ->
  own (js "tasks") ps = Some x ->
  own (js "tasks") (obj_set (js k) v ps) = Some x.
Proof. intros Hk H. now rewrite own_obj_set_other. Qed.

(** The four assignments go through on a countable reply, and give the
    reply with its counters recomputed. *)
Lemma calculate_counts_countable (data : value) :
  countable data = true -> calculate_counts data = Normal (with_counts data).
Proof.
  destruct data as [| | | | |?|ps]; try discriminate.
  unfold countable, with_counts, field.
  destruct (own (js "tasks") ps) as [tv|] eqn:Hts; [|discriminate].
  destruct tv as [| | | | |ts|]; try discriminate.
  intros Hall. unfold calculate_counts.
  cbn [get]. rewrite Hts. cbn [bind get].
  change (str_eqb (js "length") (js "length")) with true. cbn [set bind].
  rewrite (@count_where_keeps _ ts "priority" false (js "high"));
    [|now apply own_tasks_kept|assumption|reflexivity].
  cbn [set bind].
  rewrite (@count_where_keeps _ ts "assignedTo" true (js "Unassigned"));
    [|now repeat apply own_tasks_kept|assumption|reflexivity].
  cbn [set bind].
  rewrite (@count_where_keeps _ ts "assignedTo" false (js "Unassigned"));
    [|now repeat apply own_tasks_kept|assumption|reflexivity].
  reflexivity.
Qed.

(** On any other reply one of them throws. *)
Lemma calculate_counts_uncountable (data : value) :
  countable data = false -> exists e, calculate_counts data = Throw e.
Proof.
  intros H. unfold calculate_counts.
  destruct data as [| |b|n|s|xs|ps]; cbn [get bind]; eauto.
  - change (str_eqb (js "tasks") (js "length")) with false. cbn [get bind]. eauto.
  - change (str_eqb (js "tasks") (js "length")) with false. cbn [get bind]. eauto.
  - unfold countable, field in H.
    destruct (own (js "tasks") ps) as [tv|] eqn:Hts; [|cbn [get bind]; eauto].
    assert (Hf : match tv with
                 | VArr ts => forallb (fun t => negb (nullish t)) ts = false
                 | _ => True
                 end) by (destruct tv; auto).
    destruct tv as [| |b|n|s|ts|qs]; cbn [get bind set]; eauto;
      match goal with
      | |- context [count_where (VObj ?o) (js "priority") false ?s] =>
          let e := fresh "e" in let He := fresh "He" in
          destruct (@count_where_throws o _ "priority" false s
                      ltac:(apply own_tasks_kept; [reflexivity|exact Hts]) Hf)
            as [e He];
          rewrite He; cbn [bind]; eauto
      end.
Qed.

Lemma counters_of_fallback : counters_recomputed tasks_fallback.
Proof. exists [], 0%nat, 0%nat, 0%nat, 0%nat. repeat split. Qed.

Lemma counters_of_with_counts (data : value) :
  countable data = true -> counters_recomputed (with_counts data).
Proof.
  destruct data as [| | | | |?|ps]; try discriminate.
  unfold countable, with_counts, field.
  destruct (own (js "tasks") ps) as [tv|] eqn:Hts; [|discriminate].
  destruct tv as [| | | | |ts|]; try discriminate.
  intros _.
  exists ts, (length ts), (count high_priority ts), (count assigned ts),
         (count unassigned ts).
  unfold field.
  repeat split.
  - rewrite !own_obj_set_other by reflexivity. now rewrite Hts.
  - rewrite !own_obj_set_other by reflexivity. now rewrite own_obj_set_same.
  - rewrite !own_obj_set_other by reflexivity. now rewrite own_obj_set_same.
  - rewrite !own_obj_set_other by reflexivity. now rewrite own_obj_set_same.
  - now rewrite own_obj_set_same.
  - apply filter_complement.
Qed.

(** What [extractTasks] returns, by the reply of the model. *)
Lemma extractTasks_cases (env : Env) (t : jsstring) :
  extractTasks env t =
  match reply env Tasks t with
  | Throw e => tasks_error e
  | Normal text =>
      match parse_reply text with
      | Throw _ => tasks_fallback
      | Normal data => if countable data then with_counts data else tasks_fallback
      end
  end.
Proof.
  unfold extractTasks, reply, prompt_of.
  destruct (generateContent env [PText (tasks_prompt t)]) as [text|e];
    cbn [bind try_return]; [|reflexivity].
  destruct (parse_reply text) as [data|e]; cbn [bind try_return]; [|reflexivity].
  destruct (countable data) eqn:Hc.
  - now rewrite calculate_counts_countable.
  - destruct (calculate_counts_uncountable data Hc) as [e He]. now rewrite He.
Qed.

(** C2, as amended.  For every task list produced by the task-extraction
    step when the model gateway returns a text (whether the text decodes
    or is replaced by the parse-failure fallback), [totalTasks] is the
    length of [tasks], [highPriorityCount] the number of tasks whose
    priority is "high", [assignedCount] the number of tasks whose assignee
    is not "Unassigned", and [assignedCount + unassignedCount] equals
    [totalTasks]: the counters are recomputed, whatever the model wrote
    for them. *)
Theorem extractTasks_counters (env : Env) (t text : jsstring) :
  reply env Tasks t = Normal text ->
  counters_recomputed (extractTasks env t).
Proof.
  intros H. rewrite extractTasks_cases, H.
  destruct (parse_reply text) as [data|e]; [|exact counters_of_fallback].
  destruct (countable data) eqn:Hc.
  - now apply counters_of_with_counts.
  - exact counters_of_fallback.
Qed.

Lemma extractTasks_counters_witness :
  counters_recomputed (extractTasks Scenario.env Scenario.transcript).
Proof.
  apply (@extractTasks_counters Scenario.env Scenario.transcript
           (fenced (jq "{~tasks~: [{~id~: 1, ~task~: ~Ship the release~, ~assignedTo~: ~Unassigned~, ~priority~: ~high~}, {~id~: 2, ~task~: ~Write notes~, ~assignedTo~: ~Dana~, ~priority~: ~low~}], ~followUpItems~: [], ~totalTasks~: 7, ~highPriorityCount~: 7, ~assignedCount~: 7, ~unassignedCount~: 7}"))).
  reflexivity.
Defined.

(** C2, as stated, fails when the gateway call itself fails: the step then
    returns the error object, which has a [tasks] array and no counter at
    all, so [totalTasks] is [undefined] and not the length of [tasks]. *)
Lemma gateway_error_has_no_counters :
  extractTasks (Scenario.down Tasks) Scenario.transcript
  = VObj [(js "error", str "Failed to extract tasks");
          (js "tasks", VArr []);
          (js "followUpItems", VArr [])]
  /\ ~ counters_recomputed (extractTasks (Scenario.down Tasks) Scenario.transcript).
Proof.
  split; [reflexivity|].
  intros (ts & total & high & asg & unasg & _ & H & _).
  vm_compute in H. discriminate H.
Qed.

(* ================================================================= *)
(** * The upload pipeline *)

Lemma transcribe_keeps_state (env : Env) (p : jsstring) (s : Server) :
  snd (transcribeWithGemini env p s) = s.
Proof.
  unfold transcribeWithGemini, mcatch, mbind, readFile, lift, throw.
  destruct (lookup_file p (files s)); [|reflexivity].
  now destruct (generateContent env _).
Qed.

Lemma transcribe_reads_file (env : Env) (p : jsstring) (s : Server) (t : jsstring) :
  fst (transcribeWithGemini env p s) = Normal t ->
  exists d, lookup_file p (files s) = Some d.
Proof.
  unfold transcribeWithGemini, mcatch, mbind, readFile, lift, throw.
  destruct (lookup_file p (files s)) as [d|]; [now exists d|discriminate].
Qed.

Lemma transcribe_result (env : Env) (p : jsstring) (s : Server) :
  transcribeWithGemini env p s = (fst (transcribeWithGemini env p s), s).
Proof.
  rewrite <- (transcribe_keeps_state env p s) at 3.
  now destruct (transcribeWithGemini env p s).
Qed.

Lemma truthy_nonempty (t : jsstring) : t <> [] -> truthy (VStr t) = true.
Proof. intros H. cbn [truthy]. now apply negb_true_iff, str_eqb_neq. Qed.

(** The clean-up never touches the meeting map. *)
Lemma cleanup_on_keeps_meetings (d : Disk) (file : option File) (s : Server) :
  meetingDatabase (cleanup_on d file s) = meetingDatabase s.
Proof.
  unfold cleanup_on. destruct file as [f|]; [|reflexivity].
  destruct (truthy (VStr (path f))); [|reflexivity].
  unfold existsSync, unlink.
  destruct (lookup_file (path f) (files s)); [|reflexivity].
  destruct (unlink_in_catch d); reflexivity.
Qed.

(** A transcription that is not empty gets the meeting stored; then the
    upload is removed and the answer is the success body, or the removal
    is refused and the request ends in the [catch] block, the meeting
    stored all the same. *)
Lemma process_audio_on_stored (d : Disk) (env : Env) (f : File) (s : Server) (t : jsstring) :
  transcribed env f s = Normal t -> t <> [] ->
  process_audio_on d env (Some f) s =
  match unlink_after_store d with
  | None => (json (success_body f (meeting_of env f t)), stored (meeting_of env f t) f s)
  | Some e =>
      (failure (message e),
       cleanup_on d (Some f)
         {| meetingDatabase := put (meetingDatabase s) (meeting_of env f t);
            files := files s |})
  end.
Proof.
  intros Ht Hne. unfold transcribed in Ht.
  destruct (transcribe_reads_file _ _ _ _ Ht) as [x Hx].
  unfold process_audio_on, mtry, mbind.
  rewrite transcribe_result, Ht, (truthy_nonempty t Hne).
  unfold ret, db_set, existsSync, unlink. cbn [negb files meetingDatabase].
  rewrite Hx. cbn [files meetingDatabase]. rewrite Hx.
  destruct (unlink_after_store d); reflexivity.
Qed.

(** An empty transcription, or none, sends the upload to the [catch]
    block before anything is stored. *)
Lemma process_audio_on_failure (d : Disk) (env : Env) (f : File) (s : Server) :
  (forall t, transcribed env f s = Normal t -> t = []) ->
  exists msg, process_audio_on d env (Some f) s = (failure msg, cleanup_on d (Some f) s).
Proof.
  intros H. unfold transcribed in H.
  unfold process_audio_on, mtry, mbind. rewrite transcribe_result.
  destruct (fst (transcribeWithGemini env (path f) s)) as [t|e].
  - rewrite (H t eq_refl). cbn [truthy str_eqb negb throw].
    eexists. reflexivity.
  - eexists. reflexivity.
Qed.

(** On a disk that refuses no removal: a transcription that is not empty
    carries the upload to the end: the meeting is stored, the file
    removed, the answer is the success body. *)
Lemma process_audio_success (env : Env) (f : File) (s : Server) (t : jsstring) :
  transcribed env f s = Normal t -> t <> [] ->
  process_audio env (Some f) s =
  (json (success_body f (meeting_of env f t)), stored (meeting_of env f t) f s).
Proof. intros Ht Hne. exact (process_audio_on_stored willing env f s t Ht Hne). Qed.

Lemma cleanup_keeps_meetings (file : option File) (s : Server) :
  meetingDatabase (cleanup file s) = meetingDatabase s.
Proof. apply cleanup_on_keeps_meetings. Qed.

Lemma process_audio_failure (env : Env) (f : File) (s : Server) :
  (forall t, transcribed env f s = Normal t -> t = []) ->
  exists msg, process_audio env (Some f) s = (failure msg, cleanup (Some f) s).
Proof. apply process_audio_on_failure. Qed.

(* ================================================================= *)
(** * The analyses, by the reply of the model *)

Lemma analyse_cases (k : kind) (env : Env) (t : jsstring) :
  analyse k env t =
  match reply env k t with
  | Throw e => error_object k e
  | Normal text =>
      match parse_reply text with
      | Throw _ => fallback k
      | Normal data => decoded k data
      end
  end.
Proof.
  destruct k; try exact (extractTasks_cases env t);
    unfold analyse, reply, prompt_of, generateMeetingSummary, generateImprovements,
      factCheckTranscription;
    (destruct (generateContent env _) as [text|e]; cbn [bind try_return];
     [destruct (parse_reply text); reflexivity|reflexivity]).
Qed.

(** An analysis depends on the model through the reply to its own prompt
    only. *)
Lemma analyse_frame (k : kind) (env env' : Env) (t : jsstring) :
  reply env' k t = reply env k t -> analyse k env' t = analyse k env t.
Proof. intros H. now rewrite !analyse_cases, H. Qed.

(** Every choice of replies is the behaviour of some model: the scripted
    model answers the prompt of each analysis, whatever the transcription,
    with the reply of its script. *)
Lemma scripted_replies (now : N) (sc : Scenario.Script) (k : kind) (t : jsstring) :
  reply (Scenario.env_at now sc) k t =
  match k with
  | Summary => Scenario.on_summary sc
  | Tasks => Scenario.on_tasks sc
  | Improvements => Scenario.on_improvements sc
  | FactCheck => Scenario.on_factcheck sc
  end.
Proof. destruct k; reflexivity. Qed.

Lemma analysis_of_meeting (k : kind) (env : Env) (f : File) (t : jsstring) :
  analysis_of k (meeting_of env f t) = analyse k env t.
Proof. now destruct k. Qed.

Lemma fallback_neutral (k : kind) : neutral k (fallback k).
Proof. destruct k; repeat split. Qed.

Lemma Map_get_set_same (k : jsstring) (v : Meeting) (m : Map.t) :
  Map.get k (Map.set k v m) = Some v.
Proof.
  induction m as [|[k' v'] m IH]; simpl.
  - now rewrite str_eqb_refl.
  - destruct (str_eqb k k') eqn:E; simpl; now rewrite E.
Qed.

Lemma Map_get_set_other (k k' : jsstring) (v : Meeting) (m : Map.t) :
  k' <> k -> Map.get k' (Map.set k v m) = Map.get k' m.
Proof.
  intros Hk. apply str_eqb_neq in Hk.
  induction m as [|[k0 v0] m IH]; simpl.
  - now rewrite Hk.
  - destruct (str_eqb k k0) eqn:E; simpl.
    + apply str_eqb_eq in E. subst k0. now rewrite Hk.
    + now rewrite IH.
Qed.

Lemma stored_meeting (m : Meeting) (f : File) (s : Server) :
  Map.get (id m) (meetingDatabase (stored m f s)) = Some m.
Proof. apply Map_get_set_same. Qed.

(** What a successful upload leaves: status 200, [success: true], and a
    stored meeting whose four analyses are the results of the four
    analysis functions. *)
Lemma upload_outcome (env : Env) (f : File) (s : Server) (t : jsstring) :
  transcribed env f s = Normal t -> t <> [] ->
  status (fst (process_audio env (Some f) s)) = 200%N /\
  field (body (fst (process_audio env (Some f) s))) "success" = VBool true /\
  exists m,
    Map.get (now_string env) (meetingDatabase (snd (process_audio env (Some f) s)))
    = Some m /\
    forall k, analysis_of k m = analyse k env t.
Proof.
  intros Ht Hne. rewrite (process_audio_success env f s t Ht Hne). cbn [fst snd].
  split; [reflexivity|]. split; [reflexivity|].
  exists (meeting_of env f t). split.
  - exact (stored_meeting (meeting_of env f t) f s).
  - intros k. apply analysis_of_meeting.
Qed.

(** The same on any disk: once the transcription is there the meeting is
    stored with the four results, whatever becomes of the removal of the
    upload; the answer is the success body when the removal is not
    refused, and the answer of the [catch] block when it is. *)
Lemma upload_outcome_on (d : Disk) (env : Env) (f : File) (s : Server) (t : jsstring) :
  transcribed env f s = Normal t -> t <> [] ->
  (exists m,
     Map.get (now_string env)
       (meetingDatabase (snd (process_audio_on d env (Some f) s))) = Some m /\
     forall k, analysis_of k m = analyse k env t) /\
  (unlink_after_store d = None ->
   status (fst (process_audio_on d env (Some f) s)) = 200%N /\
   field (body (fst (process_audio_on d env (Some f) s))) "success" = VBool true) /\
  (forall e, unlink_after_store d = Some e ->
   fst (process_audio_on d env (Some f) s) = failure (message e)).
Proof.
  intros Ht Hne. rewrite (process_audio_on_stored d env f s t Ht Hne).
  split; [|split].
  - exists (meeting_of env f t). split; [|intros k; apply analysis_of_meeting].
    destruct (unlink_after_store d); cbn [snd].
    + rewrite cleanup_on_keeps_meetings. cbn [meetingDatabase].
      exact (Map_get_set_same (now_string env) (meeting_of env f t) (meetingDatabase s)).
    + exact (stored_meeting (meeting_of env f t) f s).
  - intros ->. split; reflexivity.
  - intros e ->. reflexivity.
Qed.

(** C1, as amended.  For each of the four analysis kinds, when the reply
    of the model does not decode as JSON after the fences are removed, the
    analysis returns exactly the fallback object the code writes for its
    kind, spelled out here property by property.  Of the list-valued
    fields the data model documents, each one is the empty list in it,
    except the ones the fallback objects do not have: [participants] in
    the summary, and the five category lists in the improvements, whose
    [improvements] property is an empty object.  The status fields are
    neutral (overview and rationale fixed texts, counters and scores 0,
    rating "unknown").  The other analyses are not touched: each is what it
    is in any run in which the model answers its prompt the same way; and
    the upload is not aborted by it: on any disk the meeting is stored with
    the four results, and the answer is status 200 with [success: true]
    when the removal of the upload is not refused. *)
Theorem malformed_reply_yields_fallback
        (k : kind) (env : Env) (t text : jsstring) (e : exn) :
  reply env k t = Normal text ->
  parse_reply text = Throw e ->
  analyse k env t =
    match k with
    | Summary =>
        VObj [(js "overview", VStr (js "Failed to parse summary"));
              (js "keyPoints", VArr []);
              (js "decisions", VArr []);
              (js "insights", VArr []);
              (js "outcomes", VArr []);
              (js "nextSteps", VArr [])]
    | Tasks =>
        VObj [(js "tasks", VArr []);
              (js "followUpItems", VArr []);
              (js "totalTasks", VNum (Int 0));
              (js "highPriorityCount", VNum (Int 0));
              (js "assignedCount", VNum (Int 0));
              (js "unassignedCount", VNum (Int 0))]
    | Improvements =>
        VObj [(js "effectivenessScore", VNum (Int 0));
              (js "scoreRationale", VStr (js "Unable to analyze"));
              (js "strengths", VArr []);
              (js "improvements", VObj []);
              (js "recommendations", VArr []);
              (js "bestPractices", VArr [])]
    | FactCheck =>
        VObj [(js "transcriptionQuality",
               VObj [(js "rating", VStr (js "unknown"));
                     (js "score", VNum (Int 0));
                     (js "issues", VArr [])]);
              (js "potentialErrors", VArr []);
              (js "factualClaims", VArr []);
              (js "inconsistencies", VArr []);
              (js "dataPoints", VArr []);
              (js "technicalTerms", VArr []);
              (js "recommendations", VArr [])]
    end /\
  (forall p, In p (documented_lists k) ->
             at_path (analyse k env t) p
             = if omitted k p then VUndefined else VArr []) /\
  neutral k (analyse k env t) /\
  (forall k' env', k' <> k -> reply env' k' t = reply env k' t ->
                   analyse k' env' t = analyse k' env t) /\
  (forall d f s,
     transcribed env f s = Normal t -> t <> [] ->
     (exists m,
        Map.get (now_string env)
          (meetingDatabase (snd (process_audio_on d env (Some f) s))) = Some m /\
        forall k', analysis_of k' m = analyse k' env t) /\
     (unlink_after_store d = None ->
      status (fst (process_audio_on d env (Some f) s)) = 200%N /\
      field (body (fst (process_audio_on d env (Some f) s))) "success" = VBool true)).
Proof.
  intros Hr Hp.
  assert (Ha : analyse k env t = fallback k) by now rewrite analyse_cases, Hr, Hp.
  rewrite Ha.
  split; [now destruct k|].
  split.
  { intros p Hin. destruct k; cbn [documented_lists In] in Hin;
      repeat (destruct Hin as [<-|Hin]; [reflexivity|]); destruct Hin. }
  split; [apply fallback_neutral|].
  split.
  - intros k' env' _ H. now apply analyse_frame.
  - intros d f s Ht Hne.
    destruct (upload_outcome_on d env f s t Ht Hne) as (H1 & H2 & _).
    split; [exact H1|exact H2].
Qed.

Lemma malformed_reply_yields_fallback_witness :
  at_path (analyse Improvements (Scenario.malformed Improvements) Scenario.transcript)
    ["improvements"; "structure"]%string = VUndefined /\
  at_path (analyse Improvements (Scenario.malformed Improvements) Scenario.transcript)
    ["strengths"]%string = VArr [] /\
  status (fst (process_audio_on willing (Scenario.malformed Improvements)
                 (Some Scenario.upload) Scenario.boot)) = 200%N.
Proof.
  destruct (malformed_reply_yields_fallback Improvements
              (Scenario.malformed Improvements) Scenario.transcript
              (js "I'm sorry, I cannot analyze this transcription.")
              JSON.syntax_error) as (_ & H2 & _ & _ & H5).
  - reflexivity.
  - reflexivity.
  - split; [|split].
    + apply (H2 ["improvements"; "structure"]%string). cbn. tauto.
    + apply (H2 ["strengths"]%string). cbn. tauto.
    + destruct (H5 willing Scenario.upload Scenario.boot) as [_ H];
        [reflexivity|discriminate|].
      apply H. reflexivity.
Defined.

(** C1, as stated, fails: not every list field of the documented shapes is
    empty in the fallback objects.  When the reply to the summary prompt is
    not JSON, the summary has no [participants] at all, where the data
    model has a list of participant names; and when the reply to the
    improvements prompt is not JSON, [improvements] is an empty object,
    without the list of any of the five categories. *)
Lemma fallback_omits_documented_lists :
  reply (Scenario.malformed Summary) Summary Scenario.transcript
  = Normal (js "I'm sorry, I cannot analyze this transcription.") /\
  parse_reply (js "I'm sorry, I cannot analyze this transcription.")
  = Throw JSON.syntax_error /\
  In ["participants"]%string (documented_lists Summary) /\
  at_path (analyse Summary (Scenario.malformed Summary) Scenario.transcript)
    ["participants"]%string = VUndefined /\
  at_path (analyse Summary (Scenario.malformed Summary) Scenario.transcript)
    ["participants"]%string <> VArr [] /\
  reply (Scenario.malformed Improvements) Improvements Scenario.transcript
  = Normal (js "I'm sorry, I cannot analyze this transcription.") /\
  field (analyse Improvements (Scenario.malformed Improvements) Scenario.transcript)
    "improvements" = VObj [] /\
  Forall (fun p => In p (documented_lists Improvements) /\
                   at_path (analyse Improvements (Scenario.malformed Improvements)
                              Scenario.transcript) p = VUndefined)
    [["improvements"; "structure"]; ["improvements"; "communication"];
     ["improvements"; "participation"]; ["improvements"; "timeManagement"];
     ["improvements"; "decisionMaking"]]%string.
Proof.
  split; [reflexivity|]. split; [reflexivity|].
  split; [cbn; tauto|]. split; [reflexivity|].
  split; [vm_compute; discriminate|].
  split; [reflexivity|]. split; [reflexivity|].
  repeat constructor; cbn; tauto.
Qed.

(** C7, as amended.  For every analysis kind and every reply that decodes
    as JSON after the fences are removed: the summary, the improvements
    and the fact check return the decoded value as it is, without any check
    of its shape; the task extraction returns the decoded object with its
    four counters overwritten when that object has a [tasks] array without
    [null], and the parse-failure fallback for every other decoded value
    (one without a [tasks] array among them).  The value so returned is
    the one the meeting record of the upload holds. *)
Theorem decoded_reply_is_returned
        (k : kind) (env : Env) (t text : jsstring) (data : value) :
  reply env k t = Normal text ->
  parse_reply text = Normal data ->
  analyse k env t =
    match k with
    | Tasks => if countable data then with_counts data else tasks_fallback
    | Summary | Improvements | FactCheck => data
    end /\
  (forall f s,
     transcribed env f s = Normal t -> t <> [] ->
     exists m,
       Map.get (now_string env) (meetingDatabase (snd (process_audio env (Some f) s)))
       = Some m /\
       analysis_of k m = analyse k env t).
Proof.
  intros Hr Hp. split.
  - rewrite analyse_cases, Hr, Hp. now destruct k.
  - intros f s Ht Hne.
    destruct (upload_outcome env f s t Ht Hne) as (_ & _ & m & Hm & Ha).
    exists m. split; [exact Hm|apply Ha].
Qed.

Lemma decoded_reply_is_returned_witness :
  analyse Summary Scenario.env Scenario.transcript
  = VObj [(js "overview", str "The team agreed to ship by Friday.");
          (js "keyPoints", VArr []);
          (js "decisions", VArr []);
          (js "insights", VArr []);
          (js "outcomes", VArr []);
          (js "nextSteps", VArr [])].
Proof.
  destruct (decoded_reply_is_returned Summary Scenario.env Scenario.transcript
              (fenced (jq "{~overview~: ~The team agreed to ship by Friday.~, ~keyPoints~: [], ~decisions~: [], ~insights~: [], ~outcomes~: [], ~nextSteps~: []}"))
              (VObj [(js "overview", str "The team agreed to ship by Friday.");
                     (js "keyPoints", VArr []);
                     (js "decisions", VArr []);
                     (js "insights", VArr []);
                     (js "outcomes", VArr []);
                     (js "nextSteps", VArr [])])) as [H _].
  - reflexivity.
  - reflexivity.
  - exact H.
Defined.

(** C7, as stated, fails for the task extraction: the reply
    [{"followUpItems": ["Send the minutes"]}] is valid JSON without a
    [tasks] array; it is not returned as decoded but replaced by the
    fallback, and the fallback is what the meeting record holds. *)
Lemma reply_without_tasks_is_replaced :
  parse_reply Scenario.no_tasks_reply
  = Normal (VObj [(js "followUpItems", VArr [str "Send the minutes"])]) /\
  extractTasks Scenario.no_tasks Scenario.transcript = tasks_fallback /\
  extractTasks Scenario.no_tasks Scenario.transcript
  <> VObj [(js "followUpItems", VArr [str "Send the minutes"])] /\
  option_map tasks
    (Map.get (js "1700000000000")
       (meetingDatabase (snd (process_audio Scenario.no_tasks (Some Scenario.upload)
                                Scenario.boot))))
  = Some tasks_fallback.
Proof.
  split; [reflexivity|]. split; [reflexivity|]. split; [|reflexivity].
  vm_compute. discriminate.
Qed.

(** X18.  A failure of the model call of any analysis is caught inside
    that analysis and replaced by the error object of its kind, spelled
    out here: [error] with a fixed text and the [message] of the failure
    for the summary, the improvements and the fact check; [error] with
    empty [tasks] and [followUpItems] for the task extraction.  This is
    for that analysis only: each other analysis is what it is in any run in
    which the model answers its prompt the same way.  When the
    transcription of the upload succeeded the pipeline goes on and the
    meeting is stored with the four results, on any disk; the request is
    answered with status 200 and [success: true] when the removal of the
    upload is not refused, and with the answer of the [catch] block, which
    carries the message of the refusal, when it is. *)
Theorem analysis_failure_is_contained
        (k : kind) (env : Env) (t : jsstring) (e : exn) :
  reply env k t = Throw e ->
  analyse k env t =
    match k with
    | Summary =>
        VObj [(js "error", VStr (js "Failed to generate summary"));
              (js "message", VStr (message e))]
    | Tasks =>
        VObj [(js "error", VStr (js "Failed to extract tasks"));
              (js "tasks", VArr []);
              (js "followUpItems", VArr [])]
    | Improvements =>
        VObj [(js "error", VStr (js "Failed to generate improvements"));
              (js "message", VStr (message e))]
    | FactCheck =>
        VObj [(js "error", VStr (js "Failed to perform fact-check"));
              (js "message", VStr (message e))]
    end /\
  (forall k' env', k' <> k -> reply env' k' t = reply env k' t ->
                   analyse k' env' t = analyse k' env t) /\
  (forall d f s,
     transcribed env f s = Normal t -> t <> [] ->
     (exists m,
        Map.get (now_string env)
          (meetingDatabase (snd (process_audio_on d env (Some f) s))) = Some m /\
        forall k', analysis_of k' m = analyse k' env t) /\
     (unlink_after_store d = None ->
      status (fst (process_audio_on d env (Some f) s)) = 200%N /\
      field (body (fst (process_audio_on d env (Some f) s))) "success" = VBool true) /\
     (forall e', unlink_after_store d = Some e' ->
      fst (process_audio_on d env (Some f) s) = failure (message e'))).
Proof.
  intros Hr.
  split; [rewrite analyse_cases, Hr; now destruct k|].
  split.
  - intros k' env' _ H. now apply analyse_frame.
  - intros d f s. apply upload_outcome_on.
Qed.

Lemma analysis_failure_is_contained_witness :
  analyse Summary (Scenario.down Summary) Scenario.transcript
  = VObj [(js "error", VStr (js "Failed to generate summary"));
          (js "message", VStr (js "fetch failed"))] /\
  status (fst (process_audio_on willing (Scenario.down Summary)
                 (Some Scenario.upload) Scenario.boot)) = 200%N.
Proof.
  destruct (analysis_failure_is_contained Summary (Scenario.down Summary)
              Scenario.transcript (Error (js "fetch failed")))
    as (H1 & _ & H3).
  - reflexivity.
  - split; [exact H1|].
    destruct (H3 willing Scenario.upload Scenario.boot) as (_ & H & _);
      [reflexivity|discriminate|].
    apply H. reflexivity.
Defined.

(** C9, at the failing input.  The upload is transcribed, the model cannot
    be reached for the task extraction, and the file system does not
    permit the removal of the upload.  The failed analysis is contained:
    the meeting is stored, with the error object in the place of its
    tasks.  But the removal is awaited inside the [try] after the meeting
    is stored, so its rejection reaches the [catch] block: the request is
    answered with status 500 and the message of the removal, not with
    success, although the transcription succeeded; and the upload is still
    in the upload directory. *)
Theorem refused_removal_fails_the_request :
  transcribed (Scenario.down Tasks) Scenario.upload Scenario.boot
  = Normal Scenario.transcript /\
  reply (Scenario.down Tasks) Tasks Scenario.transcript
  = Throw (Error (js "fetch failed")) /\
  fst (process_audio_on (locked (path Scenario.upload)) (Scenario.down Tasks)
         (Some Scenario.upload) Scenario.boot)
  = status_json 500
      (VObj [(js "error", VStr (js "Failed to process audio file"));
             (js "details",
              VStr (js "EPERM: operation not permitted, unlink 'uploads/1700000000000-standup.wav'"))]) /\
  field (body (fst (process_audio_on (locked (path Scenario.upload))
                      (Scenario.down Tasks) (Some Scenario.upload) Scenario.boot)))
    "success" = VUndefined /\
  (exists m,
     Map.get (js "1700000000000")
       (meetingDatabase
          (snd (process_audio_on (locked (path Scenario.upload)) (Scenario.down Tasks)
                  (Some Scenario.upload) Scenario.boot))) = Some m /\
     transcription m = Scenario.transcript /\
     tasks m = VObj [(js "error", VStr (js "Failed to extract tasks"));
                     (js "tasks", VArr []);
                     (js "followUpItems", VArr [])]) /\
  lookup_file (path Scenario.upload)
    (files (snd (process_audio_on (locked (path Scenario.upload)) (Scenario.down Tasks)
                   (Some Scenario.upload) Scenario.boot)))
  = Some [82; 73; 70; 70]%N.
Proof.
  split; [reflexivity|]. split; [reflexivity|].
  split; [vm_compute; reflexivity|]. split; [vm_compute; reflexivity|].
  split; [|vm_compute; reflexivity].
  eexists. split; [vm_compute; reflexivity|]. split; vm_compute; reflexivity.
Qed.

(** C4.  When the transcription step of an upload returns an empty text,
    the request is answered with status 500 and no meeting is created: the
    meeting map after the request is the one before it. *)
Theorem empty_transcription_aborts (env : Env) (f : File) (s : Server) :
  transcribed env f s = Normal [] ->
  status (fst (process_audio env (Some f) s)) = 500%N /\
  body (fst (process_audio env (Some f) s))
  = VObj [(js "error", str "Failed to process audio file");
          (js "details", str "Failed to transcribe audio")] /\
  meetingDatabase (snd (process_audio env (Some f) s)) = meetingDatabase s.
Proof.
  intros H. unfold transcribed in H.
  unfold process_audio, process_audio_on, mtry, mbind. rewrite transcribe_result, H.
  cbn [truthy str_eqb negb throw fst snd status body status_json message].
  repeat split. apply cleanup_on_keeps_meetings.
Qed.

Lemma empty_transcription_aborts_witness :
  status (fst (process_audio Scenario.silent (Some Scenario.upload) Scenario.boot))
  = 500%N /\
  body (fst (process_audio Scenario.silent (Some Scenario.upload) Scenario.boot))
  = VObj [(js "error", str "Failed to process audio file");
          (js "details", str "Failed to transcribe audio")] /\
  meetingDatabase (snd (process_audio Scenario.silent (Some Scenario.upload)
                          Scenario.boot))
  = meetingDatabase Scenario.boot.
Proof.
  apply (empty_transcription_aborts Scenario.silent Scenario.upload Scenario.boot).
  reflexivity.
Defined.

(* ================================================================= *)
(** * Meeting ids *)

Lemma uint_digits_inj (d d' : Decimal.uint) :
  uint_digits d = uint_digits d' -> d = d'.
Proof.
  revert d'; induction d; intros d' H; destruct d'; simpl in H;
    try discriminate; try reflexivity;
    injection H as H; f_equal; now apply IHd.
Qed.

Lemma digits_inj (n n' : N) : digits n = digits n' -> n = n'.
Proof.
  intros H. apply DecimalN.Unsigned.to_uint_inj. now apply uint_digits_inj.
Qed.

Lemma of_uint_acc_lower (l : Decimal.uint) (acc : positive) :
  (N.pos acc * 10 ^ N.of_nat (length (uint_digits l)) <= N.pos (Pos.of_uint_acc l acc))%N.
Proof.
  revert acc; induction l; intros acc; cbn [uint_digits length Pos.of_uint_acc];
    [rewrite N.pow_0_r; lia|..];
    (eapply N.le_trans; [|apply IHl]);
    rewrite Nat2N.inj_succ, N.pow_succ_r'; nia.
Qed.

Lemma nzhead_head (d : Decimal.uint) :
  match Decimal.nzhead d with Decimal.D0 _ => False | _ => True end.
Proof. induction d; simpl; auto. Qed.

Lemma to_uint_unorm (n : N) : N.to_uint n = Decimal.unorm (N.to_uint n).
Proof.
  rewrite <- (DecimalN.Unsigned.of_to n) at 1.
  apply DecimalN.Unsigned.to_of.
Qed.

Lemma digits_length_bound (n : N) :
  (n < 10 ^ 21)%N -> (length (digits n) <= 21)%nat.
Proof.
  intros Hn. unfold digits.
  pose proof (DecimalN.Unsigned.of_to n) as Hof.
  rewrite (to_uint_unorm n) in *. unfold Decimal.unorm in *.
  pose proof (nzhead_head (N.to_uint n)) as Hh.
  destruct (Decimal.nzhead (N.to_uint n)) as [|l|l|l|l|l|l|l|l|l|l];
    try contradiction; cbn [uint_digits length]; try lia;
    cbn [N.of_uint Pos.of_uint] in Hof;
    match type of Hof with
    | N.pos (Pos.of_uint_acc l ?k) = n =>
        pose proof (of_uint_acc_lower l k) as Hl
    end;
    rewrite Hof in Hl;
    assert (Hp : (10 ^ N.of_nat (length (uint_digits l)) < 10 ^ 21)%N) by nia;
    apply N.pow_lt_mono_r_iff in Hp; lia.
Qed.

(** A time value is an integer of at most sixteen digits, which
    [Number::toString] prints in full. *)
Lemma now_string_digits (env : Env) :
  (Date_now env <= max_time_value)%N ->
  now_string env = digits (Date_now env).
Proof.
  intros H. unfold now_string, number_to_string.
  rewrite Zabs2N.id.
  assert (Hl : (length (digits (Date_now env)) <= 21)%nat).
  { apply digits_length_bound. unfold max_time_value in H. lia. }
  apply Nat.leb_le in Hl. rewrite Hl.
  destruct (Z.ltb_spec (Z.of_N (Date_now env)) 0) as [Hneg|_]; [lia|reflexivity].
Qed.

Lemma Map_keys_set_present (k : jsstring) (v : Meeting) (m : Map.t) :
  Map.get k m <> None -> Map.keys (Map.set k v m) = Map.keys m.
Proof.
  unfold Map.keys. induction m as [|[k' v'] m IH]; simpl; intros H; [congruence|].
  destruct (str_eqb k k'); simpl; [reflexivity|]. now rewrite IH.
Qed.

(** C10.  The id of the meeting of an upload is the decimal text of the
    clock read at the start of the handler; the ids of two uploads are the
    same exactly when their clock values are; and the map keeps one meeting
    per id: when a second upload reads the same clock value as the first,
    it is stored under the id of the first, whose meeting it replaces, and
    the map gets no new key.  (Clock values are time values: integers up to
    [max_time_value].) *)
Theorem meeting_id_is_clock_text
        (env1 env2 : Env) (f1 f2 : File) (s : Server) (t1 t2 : jsstring) :
  (Date_now env1 <= max_time_value)%N ->
  (Date_now env2 <= max_time_value)%N ->
  transcribed env1 f1 s = Normal t1 -> t1 <> [] ->
  transcribed env2 f2 (snd (process_audio env1 (Some f1) s)) = Normal t2 -> t2 <> [] ->
  field (body (fst (process_audio env1 (Some f1) s))) "meetingId"
  = VStr (digits (Date_now env1)) /\
  Map.get (digits (Date_now env1)) (meetingDatabase (snd (process_audio env1 (Some f1) s)))
  = Some (meeting_of env1 f1 t1) /\
  (field (body (fst (process_audio env1 (Some f1) s))) "meetingId"
   = field (body (fst (process_audio env2 (Some f2)
                         (snd (process_audio env1 (Some f1) s))))) "meetingId"
   <-> Date_now env1 = Date_now env2) /\
  (Date_now env1 = Date_now env2 ->
   Map.get (digits (Date_now env1))
     (meetingDatabase (snd (process_audio env2 (Some f2)
                              (snd (process_audio env1 (Some f1) s)))))
   = Some (meeting_of env2 f2 t2) /\
   Map.keys (meetingDatabase (snd (process_audio env2 (Some f2)
                                     (snd (process_audio env1 (Some f1) s)))))
   = Map.keys (meetingDatabase (snd (process_audio env1 (Some f1) s)))).
Proof.
  intros Hd1 Hd2 Ht1 Hne1 Ht2 Hne2.
  rewrite (process_audio_success env2 f2 _ t2 Ht2 Hne2).
  rewrite (process_audio_success env1 f1 s t1 Ht1 Hne1).
  cbn [fst snd body json].
  assert (Hid1 : id (meeting_of env1 f1 t1) = digits (Date_now env1))
    by exact (now_string_digits env1 Hd1).
  assert (Hid2 : id (meeting_of env2 f2 t2) = digits (Date_now env2))
    by exact (now_string_digits env2 Hd2).
  assert (Hb : forall f m, field (success_body f m) "meetingId" = VStr (id m))
    by reflexivity.
  rewrite !Hb, Hid1, Hid2.
  split; [reflexivity|]. split.
  { rewrite <- Hid1. apply stored_meeting. }
  split.
  { split.
    - intros H. injection H as H. now apply digits_inj.
    - now intros ->. }
  intros Hsame. rewrite Hsame. split.
  - rewrite <- Hid2. apply stored_meeting.
  - unfold stored at 1. cbn [meetingDatabase]. rewrite Hid2.
    apply Map_keys_set_present.
    rewrite <- Hsame, <- Hid1. rewrite stored_meeting. discriminate.
Qed.

Lemma meeting_id_is_clock_text_witness :
  field (body (fst (process_audio Scenario.env (Some Scenario.upload) Scenario.boot)))
    "meetingId" = str "1700000000000" /\
  Map.keys (meetingDatabase
              (snd (process_audio Scenario.env (Some Scenario.second_upload)
                      (snd (process_audio Scenario.env (Some Scenario.upload)
                              Scenario.boot)))))
  = [js "1700000000000"].
Proof.
  destruct (@meeting_id_is_clock_text Scenario.env Scenario.env Scenario.upload
              Scenario.second_upload Scenario.boot Scenario.transcript
              Scenario.transcript) as (H1 & _ & _ & H4).
  - vm_compute. discriminate.
  - vm_compute. discriminate.
  - reflexivity.
  - discriminate.
  - reflexivity.
  - discriminate.
  - split; [exact H1|].
    destruct (H4 eq_refl) as [_ H5]. rewrite H5. reflexivity.
Defined.

(* ================================================================= *)
(** * The listing of meetings *)

Lemma Map_set_fresh (k : jsstring) (v : Meeting) (m : Map.t) :
  ~ In k (Map.keys m) -> Map.set k v m = m ++ [(k, v)].
Proof.
  unfold Map.keys. induction m as [|[k' v'] m IH]; simpl; intros H; [reflexivity|].
  destruct (str_eqb k k') eqn:E.
  - apply str_eqb_eq in E. subst k'. tauto.
  - rewrite IH; [reflexivity|tauto].
Qed.

(** Meetings put under ids that are new come after those already there, in
    the order in which they are put. *)
Lemma puts_append (ms : list Meeting) (db : Map.t) :
  NoDup (Map.keys db ++ map id ms) ->
  fold_left put ms db = db ++ map (fun m => (id m, m)) ms.
Proof.
  revert db; induction ms as [|m ms IH]; intros db H; simpl.
  - now rewrite app_nil_r.
  - assert (Hfresh : ~ In (id m) (Map.keys db)).
    { intros Hin. apply NoDup_remove_2 in H. apply H, in_or_app. now left. }
    unfold put at 2. rewrite (Map_set_fresh (id m) m db Hfresh), IH.
    + now rewrite <- app_assoc.
    + unfold Map.keys in *. rewrite map_app. simpl.
      rewrite <- app_assoc. exact H.
Qed.

Lemma mapM_entries (ms : list Meeting) :
  forallb (fun m => is_text (summary m)) ms = true ->
  mapM meeting_entry ms = Normal (map (fun m => entry_of m (summary_text m)) ms).
Proof.
  induction ms as [|m ms IH]; cbn [forallb mapM map]; intros H; [reflexivity|].
  apply andb_true_iff in H as [Hm Hms].
  rewrite (IH Hms). unfold meeting_entry.
  destruct (summary m) eqn:E; try discriminate.
  unfold summary_text. rewrite E. reflexivity.
Qed.

Lemma mapM_throws (ms : list Meeting) :
  forallb (fun m => is_text (summary m)) ms = false ->
  exists e, mapM meeting_entry ms = Throw e.
Proof.
  induction ms as [|m ms IH]; cbn [forallb mapM]; intros H; [discriminate|].
  unfold meeting_entry at 1.
  destruct (summary m) eqn:E; cbn [call_substring0 bind is_text andb] in *;
    try (eexists; reflexivity).
  destruct (IH H) as [e He]. rewrite He. now exists e.
Qed.

(** The order of the listing.  When every stored summary is a string, the
    listing of a store filled by [put] with meetings of distinct ids has
    one entry per meeting, the last one put first. *)
Lemma listing_reverses_insertion (ms : list Meeting) (fs : list (jsstring * list N)) :
  NoDup (map id ms) ->
  forallb (fun m => is_text (summary m)) ms = true ->
  get_meetings {| meetingDatabase := fold_left put ms Map.empty; files := fs |}
  = Normal (listing ms).
Proof.
  intros Hnd Htext. unfold get_meetings. cbn [meetingDatabase].
  rewrite (puts_append ms Map.empty) by exact Hnd.
  unfold Map.values, Map.empty. cbn [app].
  rewrite map_map. cbn [snd]. rewrite map_id.
  now rewrite (mapM_entries ms Htext).
Qed.

(** The listing throws as soon as one stored summary is not a string. *)
Lemma listing_throws (s : Server) :
  forallb (fun m => is_text (summary m)) (Map.values (meetingDatabase s)) = false ->
  exists e, get_meetings s = Throw e.
Proof.
  intros H. unfold get_meetings.
  destruct (mapM_throws _ H) as [e He]. rewrite He. now exists e.
Qed.

Lemma values_set_fails (p : Meeting -> bool) (k : jsstring) (v : Meeting) (m : Map.t) :
  p v = false -> forallb p (Map.values (Map.set k v m)) = false.
Proof.
  intros Hv. unfold Map.values.
  induction m as [|[k' v'] m IH]; simpl.
  - now rewrite Hv.
  - destruct (str_eqb k k'); simpl.
    + now rewrite Hv.
    + rewrite IH. apply andb_false_r.
Qed.

(** After an upload whose summary is not a string, the listing throws. *)
Lemma listing_after_upload_throws (env : Env) (f : File) (s : Server) (t : jsstring) :
  transcribed env f s = Normal t -> t <> [] ->
  is_text (generateMeetingSummary env t) = false ->
  exists e, get_meetings (snd (process_audio env (Some f) s)) = Throw e.
Proof.
  intros Ht Hne Hs. rewrite (process_audio_success env f s t Ht Hne). cbn [snd].
  apply listing_throws. unfold stored. cbn [meetingDatabase].
  now apply values_set_fails.
Qed.

(** The summary step returns a string only when the model replied with
    the JSON text of a string. *)
Lemma summary_is_text_only_if (env : Env) (t : jsstring) :
  is_text (generateMeetingSummary env t) = true ->
  exists text s, reply env Summary t = Normal text /\
                 parse_reply text = Normal (VStr s).
Proof.
  change (generateMeetingSummary env t) with (analyse Summary env t).
  rewrite analyse_cases.
  destruct (reply env Summary t) as [text|e]; [|discriminate].
  destruct (parse_reply text) as [data|e] eqn:Hp; [|discriminate].
  cbn [decoded]. destruct data; try discriminate. intros _. now exists text, s.
Qed.

(** C5, at the failing input.  Two uploads a millisecond apart, each
    analysed by a model that answers with the JSON object it is asked for,
    leave two meetings with distinct ids in the map, the first one first;
    the listing then throws at [m.summary.substring] instead of returning
    the two entries, last created first. *)
Theorem listing_of_two_uploads_throws :
  Map.keys (meetingDatabase Scenario.after_two)
  = [js "1700000000000"; js "1700000000001"] /\
  get_meetings Scenario.after_two = Throw (not_a_function "m.summary.substring").
Proof. split; reflexivity. Qed.

(** C6, at the failing input.  After one upload analysed by a model that
    answers with the JSON object it is asked for, the stored summary is that
    object; the listing throws at [m.summary.substring] and returns no
    entry for the meeting.  The same happens when the stored summary is the
    parse-failure fallback or the error object. *)
Theorem listing_of_structured_summary_throws :
  option_map summary (Map.get (js "1700000000000") (meetingDatabase Scenario.after_one))
  = Some (VObj [(js "overview", str "The team agreed to ship by Friday.");
                (js "keyPoints", VArr []);
                (js "decisions", VArr []);
                (js "insights", VArr []);
                (js "outcomes", VArr []);
                (js "nextSteps", VArr [])]) /\
  get_meetings Scenario.after_one = Throw (not_a_function "m.summary.substring") /\
  get_meetings (snd (process_audio (Scenario.malformed Summary) (Some Scenario.upload)
                       Scenario.boot))
  = Throw (not_a_function "m.summary.substring") /\
  get_meetings (snd (process_audio (Scenario.down Summary) (Some Scenario.upload)
                       Scenario.boot))
  = Throw (not_a_function "m.summary.substring").
Proof. repeat split; reflexivity. Qed.

(* ================================================================= *)
(** * The chat endpoint *)

(** A meeting id that is not a key of the map: the prompt is the message
    and the directive. *)
Lemma chat_prompt_unresolved (db : Map.t) (q : jsstring) (meetingId : value) :
  resolve meetingId db = None ->
  chat_prompt db (VStr q) meetingId = Normal (q ++ chat_directive).
Proof. intros H. unfold chat_prompt. now rewrite H. Qed.

(** The text of the model is the [response] of the answer, unchanged. *)
Lemma chat_forwards_reply (env : Env) (s : Server) (body : value)
      (msg meetingId : value) (prompt text : jsstring) :
  get body (js "message") = Normal msg ->
  get body (js "meetingId") = Normal meetingId ->
  truthy msg = true ->
  chat_prompt (meetingDatabase s) msg meetingId = Normal prompt ->
  generateContent env [PText prompt] = Normal text ->
  chat env body s = json (VObj [(js "success", VBool true); (js "response", VStr text)]).
Proof.
  intros Hm Hi Ht Hp Hg. unfold chat. rewrite Hm, Hi. cbn [bind].
  rewrite Ht. cbn [negb]. rewrite Hp. cbn [bind]. now rewrite Hg.
Qed.

(** The context block of a meeting whose summary and task list are
    objects (without a property named [toString]) shows neither of them. *)
Lemma chat_prompt_of_objects (db : Map.t) (k q : jsstring) (m : Meeting)
      (ps qs : list (jsstring * value)) :
  resolve (VStr k) db = Some m ->
  summary m = VObj ps -> own (js "toString") ps = None ->
  tasks m = VObj qs -> own (js "toString") qs = None ->
  chat_prompt db (VStr q) (VStr k)
  = Normal (chat_context (transcription m) (js "[object Object]") (js "[object Object]")
            ++ q ++ chat_directive).
Proof.
  intros Hr Hs Hps Ht Hqs. unfold chat_prompt. rewrite Hr, Hs, Ht.
  cbn [to_string]. now rewrite Hps, Hqs.
Qed.

(** C8, at the failing input.  After the healthy upload, a question about
    the stored meeting is sent with a context block that holds the
    transcription, and the text [[object Object]] where the summary and the
    task list should be: nothing of the stored summary and task list
    reaches the model.  The question and the directive follow, and the
    text of the model is returned as it is. *)
Theorem chat_context_shows_no_summary :
  chat_prompt (meetingDatabase Scenario.after_one)
    (str "What was decided?") (str "1700000000000")
  = Normal (chat_context Scenario.transcript (js "[object Object]") (js "[object Object]")
            ++ js "What was decided?" ++ chat_directive) /\
  chat Scenario.env Scenario.question Scenario.after_one
  = json (VObj [(js "success", VBool true);
                (js "response", str "The team decided to ship by Friday.")]).
Proof. split; reflexivity. Qed.

(** The task extraction always returns an object, so the context block
    never shows a task list: the text put after [Tasks:] is
    [[object Object]], unless the conversion throws. *)
Lemma extractTasks_is_object (env : Env) (t : jsstring) :
  exists ps, extractTasks env t = VObj ps.
Proof.
  rewrite extractTasks_cases.
  destruct (reply env Tasks t) as [text|e]; [|eexists; reflexivity].
  destruct (parse_reply text) as [data|e]; [|eexists; reflexivity].
  destruct (countable data) eqn:Hc; [|eexists; reflexivity].
  destruct data as [| | | | |?|ps]; try discriminate.
  unfold countable, field in Hc. unfold with_counts, field.
  destruct (own (js "tasks") ps) as [tv|]; [|discriminate].
  destruct tv; try discriminate. eexists; reflexivity.
Qed.

Lemma tasks_never_shown (env : Env) (t : jsstring) :
  to_string (extractTasks env t) = Normal (js "[object Object]") \/
  to_string (extractTasks env t) = Throw cannot_convert.
Proof.
  destruct (extractTasks_is_object env t) as [ps ->]. cbn [to_string].
  destruct (own (js "toString") ps); auto.
Qed.

(* ================================================================= *)
(** * Transcription: what is sent, and what a failure becomes *)

Lemma mime_of_allowed (filePath : jsstring) : fileFilter (mime_of filePath) = Normal true.
Proof.
  unfold mime_of, mimeTypes. cbn [assoc].
  repeat match goal with
         | |- context [str_eqb ?a ?b] => destruct (str_eqb a b)
         end; reflexivity.
Qed.

(** X1.  The audio of an upload that is on disk goes to the model as one
    request: the transcription prompt, and the base64 text of the file
    with the MIME type of its lower-cased extension, [audio/mpeg] when the
    extension is not in the table.  Whatever the path, that MIME type is
    one the upload filter accepts.  The text of the model is returned as
    it is, an error of the model is thrown again with the prefix of the
    function, and the state is left as it was. *)
Theorem transcription_request (env : Env) (p : jsstring) (s : Server) (d : list N) :
  lookup_file p (files s) = Some d ->
  transcribeWithGemini env p s
  = (rethrown (generateContent env [PText transcribe_prompt;
                                    PInline (base64 d) (mime_of p)]), s) /\
  fileFilter (mime_of p) = Normal true.
Proof.
  intros Hd. split; [|apply mime_of_allowed].
  unfold transcribeWithGemini, mcatch, mbind, readFile, lift, throw, rethrown, mime_of.
  rewrite Hd. now destruct (generateContent env _).
Qed.

Lemma transcription_request_witness :
  transcribeWithGemini Scenario.env (path Scenario.upload) Scenario.boot
  = (Normal Scenario.transcript, Scenario.boot) /\
  mime_of (path Scenario.upload) = js "audio/wav".
Proof.
  destruct (transcription_request Scenario.env (path Scenario.upload) Scenario.boot
              [82; 73; 70; 70]%N) as [H _].
  - reflexivity.
  - split; [rewrite H; reflexivity|reflexivity].
Defined.

(** X2.  When the transcription step throws (the file cannot be read, or
    the model call fails), what it throws is an [Error] whose message
    starts with "Failed to transcribe audio with Gemini: "; the request is
    answered with status 500, that message as [details], and the meeting
    map is left as it was. *)
Theorem transcription_error_is_reported (env : Env) (f : File) (s : Server) (e : exn) :
  transcribed env f s = Throw e ->
  (exists msg, e = Error (js "Failed to transcribe audio with Gemini: " ++ msg)) /\
  fst (process_audio env (Some f) s) = failure (message e) /\
  meetingDatabase (snd (process_audio env (Some f) s)) = meetingDatabase s.
Proof.
  intros H. split; [|split].
  - revert H. unfold transcribed, transcribeWithGemini, mcatch, mbind, readFile, lift, throw.
    destruct (lookup_file (path f) (files s)); cbn [fst].
    + destruct (generateContent env _) as [t|e0]; cbn [fst]; [discriminate|].
      intros H. injection H as <-. eexists. reflexivity.
    + intros H. injection H as <-. eexists. reflexivity.
  - unfold transcribed in H. unfold process_audio, process_audio_on, mtry, mbind.
    rewrite transcribe_result, H. reflexivity.
  - unfold transcribed in H. unfold process_audio, process_audio_on, mtry, mbind.
    rewrite transcribe_result, H. cbn [snd]. apply cleanup_on_keeps_meetings.
Qed.

Lemma transcription_error_is_reported_witness :
  fst (process_audio (Scenario.env_at Scenario.epoch
                        (Scenario.with_transcription Scenario.unreachable
                           Scenario.healthy))
         (Some Scenario.upload) Scenario.boot)
  = failure (js "Failed to transcribe audio with Gemini: fetch failed").
Proof.
  destruct (transcription_error_is_reported
              (Scenario.env_at Scenario.epoch
                 (Scenario.with_transcription Scenario.unreachable Scenario.healthy))
              Scenario.upload Scenario.boot
              (Error (js "Failed to transcribe audio with Gemini: fetch failed")))
    as (_ & H & _).
  - reflexivity.
  - exact H.
Defined.

(* ================================================================= *)
(** * Uploads: the upload directory and the meeting map *)

(** An upload either goes through or ends in the [catch] block. *)
Lemma process_audio_cases (env : Env) (f : File) (s : Server) :
  (exists t, transcribed env f s = Normal t /\ t <> [] /\
             process_audio env (Some f) s
             = (json (success_body f (meeting_of env f t)),
                stored (meeting_of env f t) f s)) \/
  (exists msg, process_audio env (Some f) s = (failure msg, cleanup (Some f) s)).
Proof.
  destruct (transcribed env f s) as [[|c t]|e] eqn:E.
  - right. apply process_audio_failure. intros t H. rewrite E in H. now injection H as <-.
  - left. exists (c :: t). split; [reflexivity|]. split; [discriminate|].
    apply process_audio_success; [exact E|discriminate].
  - right. apply process_audio_failure. intros t H. rewrite E in H. discriminate H.
Qed.

Lemma remove_file_absent (p : jsstring) (fs : list (jsstring * list N)) :
  lookup_file p fs = None -> remove_file p fs = fs.
Proof.
  induction fs as [|[p' d] fs IH]; simpl; intros H; [reflexivity|].
  destruct (str_eqb p p'); [discriminate|]. now rewrite IH.
Qed.

Lemma lookup_file_not_in (p : jsstring) (fs : list (jsstring * list N)) :
  ~ In p (map fst fs) -> lookup_file p fs = None.
Proof.
  induction fs as [|[p' d] fs IH]; simpl; intros H; [reflexivity|].
  destruct (str_eqb p p') eqn:E.
  - apply str_eqb_eq in E. subst p'. tauto.
  - apply IH. tauto.
Qed.

Lemma lookup_remove_same (p : jsstring) (fs : list (jsstring * list N)) :
  NoDup (map fst fs) -> lookup_file p (remove_file p fs) = None.
Proof.
  induction fs as [|[p' d] fs IH]; simpl; intros H; [reflexivity|].
  apply NoDup_cons_iff in H as [Hn Hd].
  destruct (str_eqb p p') eqn:E.
  - apply str_eqb_eq in E. subst p'. now apply lookup_file_not_in.
  - simpl. rewrite E. now apply IH.
Qed.

Lemma lookup_remove_other (p q : jsstring) (fs : list (jsstring * list N)) :
  q <> p -> lookup_file q (remove_file p fs) = lookup_file q fs.
Proof.
  intros Hq. induction fs as [|[p' d] fs IH]; simpl; [reflexivity|].
  destruct (str_eqb p p') eqn:E.
  - apply str_eqb_eq in E. subst p'.
    apply str_eqb_neq in Hq. now rewrite Hq.
  - simpl. now rewrite IH.
Qed.

(** The same on any disk. *)
Lemma process_audio_on_cases (d : Disk) (env : Env) (f : File) (s : Server) :
  (exists t, transcribed env f s = Normal t /\ t <> [] /\
             process_audio_on d env (Some f) s =
             match unlink_after_store d with
             | None => (json (success_body f (meeting_of env f t)),
                        stored (meeting_of env f t) f s)
             | Some e =>
                 (failure (message e),
                  cleanup_on d (Some f)
                    {| meetingDatabase := put (meetingDatabase s) (meeting_of env f t);
                       files := files s |})
             end) \/
  ((forall t, transcribed env f s = Normal t -> t = []) /\
   exists msg, process_audio_on d env (Some f) s = (failure msg, cleanup_on d (Some f) s)).
Proof.
  assert (C : (exists t, transcribed env f s = Normal t /\ t <> []) \/
              (forall t, transcribed env f s = Normal t -> t = [])).
  { destruct (transcribed env f s) as [[|c t]|e].
    - right. intros t H. now injection H as <-.
    - left. exists (c :: t). split; [reflexivity|discriminate].
    - right. intros t H. discriminate H. }
  destruct C as [(t & Ht & Hne)|Hf].
  - left. exists t. split; [exact Ht|]. split; [exact Hne|].
    now apply process_audio_on_stored.
  - right. split; [exact Hf|]. now apply process_audio_on_failure.
Qed.

(** The upload directory after the clean-up of the [catch] block: the
    upload is taken out of it unless the removal is refused. *)
Lemma files_after_cleanup (d : Disk) (f : File) (s : Server) :
  path f <> [] ->
  files (cleanup_on d (Some f) s) =
  match unlink_in_catch d with
  | None => remove_file (path f) (files s)
  | Some _ => files s
  end.
Proof.
  intros Hp. unfold cleanup_on. rewrite (truthy_nonempty (path f) Hp).
  unfold existsSync, unlink.
  destruct (lookup_file (path f) (files s)) eqn:E; cbn [snd files].
  - destruct (unlink_in_catch d); reflexivity.
  - destruct (unlink_in_catch d); [reflexivity|]. now rewrite remove_file_absent.
Qed.

(** The upload directory after a request with a file: the upload is taken
    out of it when the request is answered with status 200, and by the
    [catch] block otherwise, unless that removal is refused. *)
Lemma files_after_upload (d : Disk) (env : Env) (f : File) (s : Server) :
  path f <> [] ->
  files (snd (process_audio_on d env (Some f) s)) =
  if (status (fst (process_audio_on d env (Some f) s)) =? 200)%N
  then remove_file (path f) (files s)
  else match unlink_in_catch d with
       | None => remove_file (path f) (files s)
       | Some _ => files s
       end.
Proof.
  intros Hp.
  destruct (process_audio_on_cases d env f s) as [(t & _ & _ & H)|(_ & msg & H)];
    rewrite H.
  - destruct (unlink_after_store d); cbn [fst snd]; [|reflexivity].
    now rewrite files_after_cleanup.
  - cbn [fst snd]. now rewrite files_after_cleanup.
Qed.

(** X3.  The clean-up of an upload is best effort.  Whatever the outcome
    of a request with an uploaded file and whatever the file system does,
    every other file is as it was, and the upload is either gone from the
    upload directory or the directory is as it was.  The upload is gone
    when the request is answered with status 200, and also when the
    removal of the [catch] block is not refused; it stays, the directory
    unchanged, when the request is not answered with status 200 and the
    removal of the [catch] block is refused, since that refusal is
    swallowed.  (The directory holds each path once, and the path of an
    upload is not empty.) *)
Theorem upload_cleanup_is_best_effort (d : Disk) (env : Env) (f : File) (s : Server) :
  path f <> [] ->
  NoDup (map fst (files s)) ->
  (forall q, q <> path f ->
             lookup_file q (files (snd (process_audio_on d env (Some f) s)))
             = lookup_file q (files s)) /\
  (lookup_file (path f) (files (snd (process_audio_on d env (Some f) s))) = None \/
   files (snd (process_audio_on d env (Some f) s)) = files s) /\
  (status (fst (process_audio_on d env (Some f) s)) = 200%N ->
   lookup_file (path f) (files (snd (process_audio_on d env (Some f) s))) = None) /\
  (unlink_in_catch d = None ->
   lookup_file (path f) (files (snd (process_audio_on d env (Some f) s))) = None) /\
  (unlink_in_catch d <> None ->
   status (fst (process_audio_on d env (Some f) s)) <> 200%N ->
   files (snd (process_audio_on d env (Some f) s)) = files s).
Proof.
  intros Hp Hnd. rewrite (files_after_upload d env f s Hp).
  pose proof (lookup_remove_same (path f) (files s) Hnd) as Hgone.
  destruct (N.eqb_spec (status (fst (process_audio_on d env (Some f) s))) 200) as [E|E].
  - split; [intros q Hq; now apply lookup_remove_other|].
    split; [now left|]. split; [auto|]. split; [auto|].
    intros _ H. now destruct H.
  - destruct (unlink_in_catch d) as [e|].
    + split; [reflexivity|]. split; [now right|]. split; [intros H; now destruct E|].
      split; [discriminate|reflexivity].
    + split; [intros q Hq; now apply lookup_remove_other|].
      split; [now left|]. split; [auto|]. split; [auto|].
      intros H. now destruct H.
Qed.

Lemma upload_cleanup_is_best_effort_witness :
  files (snd (process_audio_on (locked (path Scenario.upload)) Scenario.silent
                (Some Scenario.upload) Scenario.boot))
  = files Scenario.boot /\
  lookup_file (path Scenario.upload)
    (files (snd (process_audio_on willing Scenario.silent
                   (Some Scenario.upload) Scenario.boot)))
  = None.
Proof.
  split.
  - destruct (upload_cleanup_is_best_effort (locked (path Scenario.upload)) Scenario.silent
                Scenario.upload Scenario.boot) as (_ & _ & _ & _ & H).
    + discriminate.
    + vm_compute. repeat constructor; simpl; intuition discriminate.
    + apply H; [discriminate|vm_compute; discriminate].
  - destruct (upload_cleanup_is_best_effort willing Scenario.silent
                Scenario.upload Scenario.boot) as (_ & _ & _ & H & _).
    + discriminate.
    + vm_compute. repeat constructor; simpl; intuition discriminate.
    + apply H. reflexivity.
Defined.

(** X4.  The meeting map changes exactly when the transcription of an
    upload is a text that is not empty, and then by one [set] of the
    meeting of the request under the id of the request, whatever the
    answer: the [set] comes before the removal of the upload, so when that
    removal is refused the request is answered with status 500 and the
    meeting is in the map all the same.  Without a file, and with an empty
    or failed transcription, the map is as it was.  An answer with status
    200 means that the transcription was not empty and the removal was not
    refused. *)
Theorem map_changes_iff_transcribed
        (d : Disk) (env : Env) (file : option File) (s : Server) :
  meetingDatabase (snd (process_audio_on d env file s)) =
  match file with
  | Some f =>
      match transcribed env f s with
      | Normal (c :: t) =>
          Map.set (now_string env) (meeting_of env f (c :: t)) (meetingDatabase s)
      | Normal [] | Throw _ => meetingDatabase s
      end
  | None => meetingDatabase s
  end /\
  (status (fst (process_audio_on d env file s)) = 200%N <->
   unlink_after_store d = None /\
   exists f t, file = Some f /\ transcribed env f s = Normal t /\ t <> []).
Proof.
  destruct file as [f|].
  2:{ split; [reflexivity|]. split; [discriminate|]. now intros (_ & f & t & H & _). }
  destruct (process_audio_on_cases d env f s) as [(t & Ht & Hne & H)|(Hf & msg & H)];
    rewrite H.
  - rewrite Ht. destruct t as [|c t]; [now destruct Hne|].
    destruct (unlink_after_store d) as [e|]; cbn [fst snd].
    + rewrite cleanup_on_keeps_meetings. split; [reflexivity|].
      split; [discriminate|]. now intros [? _].
    + split; [reflexivity|]. split; [|reflexivity].
      intros _. split; [reflexivity|]. exists f, (c :: t). now repeat split.
  - cbn [fst snd]. rewrite cleanup_on_keeps_meetings. split.
    + destruct (transcribed env f s) as [[|c t]|e]; try reflexivity.
      specialize (Hf (c :: t) eq_refl). discriminate Hf.
    + split; [discriminate|]. intros (_ & f0 & t & Hfile & Ht & Hne).
      injection Hfile as <-. now destruct Hne; apply Hf.
Qed.

(** X20.  The answer to an upload request, on any disk: status 400 without
    a file; the answer of the [catch] block, status 500, with "Failed to
    transcribe audio" for an empty transcription, with the message of the
    failure for a failed one, and with the message of the refusal when the
    removal of the upload after the [set] is refused; the success body in
    the one remaining case. *)
Theorem upload_answer (d : Disk) (env : Env) (file : option File) (s : Server) :
  fst (process_audio_on d env file s) =
  match file with
  | None => no_file
  | Some f =>
      match transcribed env f s with
      | Normal [] => failure (js "Failed to transcribe audio")
      | Normal (c :: t) =>
          match unlink_after_store d with
          | None => json (success_body f (meeting_of env f (c :: t)))
          | Some e => failure (message e)
          end
      | Throw e => failure (message e)
      end
  end.
Proof.
  destruct file as [f|]; [|reflexivity].
  destruct (transcribed env f s) as [[|c t]|e] eqn:E.
  - unfold transcribed in E. unfold process_audio_on, mtry, mbind.
    rewrite transcribe_result, E. reflexivity.
  - rewrite (process_audio_on_stored d env f s (c :: t) E); [|discriminate].
    destruct (unlink_after_store d); reflexivity.
  - unfold transcribed in E. unfold process_audio_on, mtry, mbind.
    rewrite transcribe_result, E. reflexivity.
Qed.

Lemma Map_get_set_present (k k' : jsstring) (v : Meeting) (m : Map.t) :
  Map.get k' m <> None -> Map.get k' (Map.set k v m) <> None.
Proof.
  intros H. destruct (str_eqb k' k) eqn:E.
  - apply str_eqb_eq in E. subst k'. rewrite Map_get_set_same. discriminate.
  - apply str_eqb_neq in E. now rewrite Map_get_set_other.
Qed.

Lemma Map_set_length (k : jsstring) (v : Meeting) (m : Map.t) :
  (length m <= length (Map.set k v m) <= S (length m))%nat.
Proof.
  induction m as [|[k' v'] m IH]; simpl; [lia|].
  destruct (str_eqb k k'); simpl; lia.
Qed.

(** The meeting map after any upload request is the map before it, or
    that map with one [set]. *)
Lemma map_after_upload (env : Env) (file : option File) (s : Server) :
  meetingDatabase (snd (process_audio env file s)) = meetingDatabase s \/
  exists m, id m = now_string env /\
            meetingDatabase (snd (process_audio env file s))
            = Map.set (now_string env) m (meetingDatabase s).
Proof.
  destruct file as [f|]; [|now left].
  destruct (process_audio_cases env f s) as [(t & _ & _ & H)|[msg H]]; rewrite H;
    cbn [snd].
  - right. exists (meeting_of env f t). split; reflexivity.
  - left. apply cleanup_keeps_meetings.
Qed.

(** X5.  No upload ever removes a meeting: an id that is in the map before
    a request is in it afterwards, and a request adds one meeting at
    most. *)
Theorem meetings_are_never_removed (env : Env) (file : option File) (s : Server) :
  (forall k, Map.has k (meetingDatabase s) = true ->
             Map.has k (meetingDatabase (snd (process_audio env file s))) = true) /\
  (length (meetingDatabase s)
   <= length (meetingDatabase (snd (process_audio env file s)))
   <= S (length (meetingDatabase s)))%nat.
Proof.
  destruct (map_after_upload env file s) as [H|(m & _ & H)]; rewrite H.
  - split; [auto|lia].
  - split; [|apply Map_set_length].
    intros k Hk. unfold Map.has in *.
    destruct (Map.get k (meetingDatabase s)) eqn:E; [|discriminate].
    pose proof (Map_get_set_present (now_string env) k m (meetingDatabase s)) as P.
    rewrite E in P.
    destruct (Map.get k (Map.set (now_string env) m (meetingDatabase s)));
      [reflexivity|]. now destruct P.
Qed.

Lemma Map_get_in_keys (k : jsstring) (m : Map.t) :
  Map.get k m <> None <-> In k (Map.keys m).
Proof.
  unfold Map.keys. induction m as [|[k' v] m IH]; simpl; [tauto|].
  destruct (str_eqb k k') eqn:E.
  - apply str_eqb_eq in E. subst k'. split; [auto|discriminate].
  - apply str_eqb_neq in E. rewrite IH. split; [auto|]. intros [H|H]; congruence.
Qed.

Lemma Map_set_well_keyed (m : Meeting) (db : Map.t) :
  well_keyed db -> well_keyed (Map.set (id m) m db).
Proof.
  intros [Hnd Hid]. split.
  - destruct (Map.get (id m) db) eqn:E.
    + rewrite Map_keys_set_present; [exact Hnd|congruence].
    + assert (Hfresh : ~ In (id m) (Map.keys db)).
      { intros Hin. apply Map_get_in_keys in Hin. congruence. }
      rewrite (Map_set_fresh (id m) m db Hfresh).
      unfold Map.keys in *. rewrite map_app. cbn [map fst].
      apply NoDup_app; [exact Hnd|repeat constructor; auto|].
      intros x Hx [<-|[]]. contradiction.
  - clear Hnd. induction db as [|[k v] db IH]; cbn [Map.set].
    + constructor; [reflexivity|constructor].
    + inversion Hid as [|? ? Hk Hrest]; subst.
      destruct (str_eqb (id m) k) eqn:E.
      * apply str_eqb_eq in E. constructor; [cbn; congruence|exact Hrest].
      * constructor; [exact Hk|now apply IH].
Qed.

(** X6.  Uploads keep the meeting map well keyed: when every meeting
    stands under its own id and no id stands twice, the same holds after
    any upload request, whatever its outcome. *)
Theorem uploads_keep_map_well_keyed (env : Env) (file : option File) (s : Server) :
  well_keyed (meetingDatabase s) ->
  well_keyed (meetingDatabase (snd (process_audio env file s))).
Proof.
  intros H. destruct (map_after_upload env file s) as [E|(m & Hm & E)]; rewrite E.
  - exact H.
  - rewrite <- Hm. now apply Map_set_well_keyed.
Qed.

Lemma uploads_keep_map_well_keyed_witness :
  well_keyed (meetingDatabase Scenario.after_one).
Proof.
  apply (uploads_keep_map_well_keyed Scenario.env (Some Scenario.upload) Scenario.boot).
  split; constructor.
Defined.

(* ================================================================= *)
(** * Reading a meeting back *)

(** X7.  Upload, then read back: after a successful upload, the endpoint
    for one meeting answers the id of the upload's answer with status 200
    and the full record, whose id is that id and whose transcription,
    analyses, file name and timestamp are those of the upload's answer. *)
Theorem uploaded_meeting_reads_back
        (env : Env) (f : File) (s : Server) (t : jsstring) :
  transcribed env f s = Normal t -> t <> [] ->
  exists k record,
    field (body (fst (process_audio env (Some f) s))) "meetingId" = VStr k /\
    get_meeting k (snd (process_audio env (Some f) s))
    = json (VObj [(js "success", VBool true); (js "meeting", record)]) /\
    field record "id" = VStr k /\
    forall name,
      In name ["transcription"; "summary"; "tasks"; "improvements"; "factCheck";
               "filename"; "timestamp"]%string ->
      field record name = field (body (fst (process_audio env (Some f) s))) name.
Proof.
  intros Ht Hne. rewrite (process_audio_success env f s t Ht Hne). cbn [fst snd].
  exists (now_string env), (Meeting_value (meeting_of env f t)).
  split; [reflexivity|]. split.
  - unfold get_meeting.
    change (now_string env) with (id (meeting_of env f t)).
    now rewrite stored_meeting.
  - split; [reflexivity|].
    intros name Hin. cbn [In] in Hin.
    repeat (destruct Hin as [<-|Hin]; [reflexivity|]). destruct Hin.
Qed.

Lemma uploaded_meeting_reads_back_witness :
  exists k record,
    field (body (fst (process_audio Scenario.env (Some Scenario.upload) Scenario.boot)))
      "meetingId" = VStr k /\
    get_meeting k (snd (process_audio Scenario.env (Some Scenario.upload) Scenario.boot))
    = json (VObj [(js "success", VBool true); (js "meeting", record)]) /\
    field record "id" = VStr k /\
    forall name,
      In name ["transcription"; "summary"; "tasks"; "improvements"; "factCheck";
               "filename"; "timestamp"]%string ->
      field record name
      = field (body (fst (process_audio Scenario.env (Some Scenario.upload)
                            Scenario.boot))) name.
Proof.
  apply (uploaded_meeting_reads_back Scenario.env Scenario.upload Scenario.boot
           Scenario.transcript).
  - reflexivity.
  - discriminate.
Defined.

(** X8.  An id that is not in the map is answered with status 404 and
    [Meeting not found]; and an upload, whatever its outcome, leaves the
    answer for every id other than its own as it was. *)
Theorem other_meetings_are_untouched
        (env : Env) (file : option File) (s : Server) (k : jsstring) :
  k <> now_string env ->
  get_meeting k (snd (process_audio env file s)) = get_meeting k s /\
  (Map.has k (meetingDatabase s) = false ->
   get_meeting k (snd (process_audio env file s))
   = status_json 404 (VObj [(js "error", str "Meeting not found")])).
Proof.
  intros Hk.
  assert (E : Map.get k (meetingDatabase (snd (process_audio env file s)))
              = Map.get k (meetingDatabase s)).
  { destruct (map_after_upload env file s) as [H|(m & _ & H)]; rewrite H;
      [reflexivity|now apply Map_get_set_other]. }
  unfold get_meeting, Map.has. rewrite E. split; [reflexivity|].
  destruct (Map.get k (meetingDatabase s)); [discriminate|reflexivity].
Qed.

Lemma other_meetings_are_untouched_witness :
  get_meeting (js "1700000000000") Scenario.after_two
  = get_meeting (js "1700000000000") Scenario.after_one /\
  get_meeting (js "42") Scenario.after_two
  = status_json 404 (VObj [(js "error", str "Meeting not found")]).
Proof.
  split.
  - apply (other_meetings_are_untouched Scenario.later (Some Scenario.second_upload)
             Scenario.after_one (js "1700000000000")).
    vm_compute. discriminate.
  - apply (other_meetings_are_untouched Scenario.later (Some Scenario.second_upload)
             Scenario.after_one (js "42")).
    + vm_compute. discriminate.
    + reflexivity.
Defined.

(* ================================================================= *)
(** * The chat endpoint: refusals, failures, and requests without context *)

(** X9.  A chat request whose [message] is missing or falsy (absent,
    [null], [false], [0], the empty string; or a body that is not an
    object) is answered with status 400 and [No message provided], whatever
    the model would say and whatever the meeting id: the model is not
    asked. *)
Theorem chat_refuses_empty_message (env : Env) (s : Server) (body msg : value) :
  get body (js "message") = Normal msg ->
  truthy msg = false ->
  chat env body s
  = status_json 400 (VObj [(js "error", str "No message provided")]).
Proof.
  intros Hm H. unfold chat. rewrite Hm. cbn [bind].
  destruct body; try discriminate; cbn [get bind]; now rewrite H.
Qed.

Lemma chat_refuses_empty_message_witness :
  chat Scenario.env (VObj [(js "message", num 0); (js "meetingId", str "1700000000000")])
    Scenario.after_one
  = status_json 400 (VObj [(js "error", str "No message provided")]).
Proof.
  apply (chat_refuses_empty_message Scenario.env Scenario.after_one
           (VObj [(js "message", num 0); (js "meetingId", str "1700000000000")])
           (num 0)).
  - reflexivity.
  - reflexivity.
Defined.

(** X10.  A chat request with a text message and a meeting id that does
    not resolve (absent, not a string, empty, or not a key of the map)
    asks the model exactly once, for the message followed by the language
    directive, with no context block; the text of the model comes back
    unchanged as [response] with status 200, and an error of the model
    becomes status 500 with the message of the error as [details]. *)
Theorem chat_without_context
        (env : Env) (s : Server) (props : list (jsstring * value)) (q : jsstring) :
  field (VObj props) "message" = VStr q -> q <> [] ->
  resolve (field (VObj props) "meetingId") (meetingDatabase s) = None ->
  chat env (VObj props) s
  = chat_answer (generateContent env [PText (q ++ chat_directive)]).
Proof.
  intros Hm Hq Hr. unfold chat. cbn [get bind]. unfold field in Hm, Hr.
  rewrite Hm, (truthy_nonempty q Hq). cbn [negb].
  rewrite (chat_prompt_unresolved _ q _ Hr). cbn [bind].
  now destruct (generateContent env _).
Qed.

Lemma chat_without_context_witness :
  chat Scenario.env
    (VObj [(js "message", str "What was decided?"); (js "meetingId", num 1700000000000)])
    Scenario.after_one
  = json (VObj [(js "success", VBool true);
                (js "response", str "The team decided to ship by Friday.")]).
Proof.
  rewrite (chat_without_context Scenario.env Scenario.after_one
             [(js "message", str "What was decided?");
              (js "meetingId", num 1700000000000)]
             (js "What was decided?")).
  - reflexivity.
  - reflexivity.
  - discriminate.
  - reflexivity.
Defined.

(** X11.  A chat request never throws and never answers anything but 200,
    400 or 500: a body that is [null] or [undefined], a message or a stored
    analysis that cannot be turned into text, and an error of the model all
    end in the [catch] block with status 500. *)
Theorem chat_status (env : Env) (body : value) (s : Server) :
  (status (chat env body s) = 200%N \/ status (chat env body s) = 400%N \/
   status (chat env body s) = 500%N) /\
  (nullish body = true -> status (chat env body s) = 500%N) /\
  (forall msg meetingId prompt e,
     get body (js "message") = Normal msg ->
     get body (js "meetingId") = Normal meetingId ->
     truthy msg = true ->
     chat_prompt (meetingDatabase s) msg meetingId = Normal prompt ->
     generateContent env [PText prompt] = Throw e ->
     chat env body s
     = status_json 500 (VObj [(js "error", str "Failed to process chat message");
                              (js "details", VStr (message e))])).
Proof.
  split; [|split].
  - unfold chat.
    destruct (get body (js "message")) as [msg|e]; cbn [bind try_return]; auto.
    destruct (get body (js "meetingId")) as [mid|e]; cbn [bind try_return]; auto.
    destruct (truthy msg); cbn [negb]; auto.
    destruct (chat_prompt (meetingDatabase s) msg mid) as [p|e];
      cbn [bind try_return]; auto.
    destruct (generateContent env [PText p]); cbn [bind try_return]; auto.
  - destruct body; try discriminate; reflexivity.
  - intros msg mid prompt e Hm Hi Ht Hp Hg. unfold chat.
    rewrite Hm, Hi. cbn [bind]. rewrite Ht. cbn [negb]. rewrite Hp. cbn [bind].
    now rewrite Hg.
Qed.

(* ================================================================= *)
(** * The response parser on replies without fences *)

Lemma match_fence_plain (c : N) (x : jsstring) :
  starts_with fence (c :: x) = false ->
  starts_with fence x = false ->
  match_fence (c :: x) = None.
Proof.
  intros Hc Hx. unfold match_fence.
  assert (H1 : starts_with (fence ++ js "json") (c :: x) = false).
  { destruct (starts_with (fence ++ js "json") (c :: x)) eqn:E; [|reflexivity].
    apply starts_with_split in E as [r E]. rewrite E, <- app_assoc in Hc.
    now rewrite starts_with_app in Hc. }
  rewrite H1.
  change (starts_with (LF :: fence) (c :: x))
    with (N.eqb LF c && starts_with fence x)%bool.
  now rewrite Hx, andb_false_r, Hc.
Qed.

Lemma strip_fences_plain (x : jsstring) :
  occurs fence x = false -> strip_fences x = x.
Proof.
  unfold strip_fences. induction x as [|c x IH]; intros H; [reflexivity|].
  cbn [occurs] in H. apply orb_false_iff in H as [Hc Hx].
  assert (Hs : starts_with fence x = false).
  { destruct x; [reflexivity|]. cbn [occurs] in Hx.
    now apply orb_false_iff in Hx as [Hx _]. }
  unfold strip_fences_from; fold strip_fences_from.
  rewrite (match_fence_plain c x Hc Hs). f_equal. now apply IH.
Qed.

Lemma strip_fences_shorter (skip : nat) (x : jsstring) :
  (length (strip_fences_from skip x) <= length x)%nat.
Proof.
  revert skip; induction x as [|c x IH]; intros skip; [simpl; lia|].
  unfold strip_fences_from; fold strip_fences_from.
  destruct skip as [|k]; [|specialize (IH k); simpl; lia].
  destruct (match_fence (c :: x)) as [[|k]|];
    [specialize (IH 0%nat)|specialize (IH k)|specialize (IH 0%nat)]; simpl; lia.
Qed.

Lemma strip_fences_skip (skip : nat) (x : jsstring) :
  strip_fences_from skip x = strip_fences_from 0 (skipn skip x).
Proof.
  revert skip. induction x as [|c x IH]; intros [|k]; try reflexivity.
  cbn [skipn]. unfold strip_fences_from at 1; fold strip_fences_from. apply IH.
Qed.

(** A match at the head of a text is one of the four markers, standing
    there. *)
Lemma match_fence_marker (x : jsstring) (n : nat) :
  match_fence x = Some n ->
  exists m, In m markers /\ x = m ++ skipn n x /\ length m = n.
Proof.
  unfold match_fence, markers.
  destruct (starts_with (fence ++ js "json") x) eqn:E1.
  - apply starts_with_split in E1 as [r ->].
    change (skipn 7 ((fence ++ js "json") ++ r)) with r.
    destruct (starts_with [LF] r) eqn:E2; intros H; injection H as <-.
    + apply starts_with_split in E2 as [r' ->].
      exists (fence ++ js "json" ++ [LF]). cbn [In]. split; [tauto|].
      split; reflexivity.
    + exists (fence ++ js "json"). cbn [In]. split; [tauto|]. split; reflexivity.
  - destruct (starts_with (LF :: fence) x) eqn:E2.
    + apply starts_with_split in E2 as [r ->]. intros H; injection H as <-.
      exists (LF :: fence). cbn [In]. split; [tauto|]. split; reflexivity.
    + destruct (starts_with fence x) eqn:E3; [|discriminate].
      apply starts_with_split in E3 as [r ->]. intros H; injection H as <-.
      exists fence. cbn [In]. split; [tauto|]. split; reflexivity.
Qed.

(** The replace only leaves markers out. *)
Lemma strip_fences_leaves_out (x : jsstring) : leaves_out x (strip_fences x).
Proof.
  unfold strip_fences.
  assert (H : forall n y, (length y <= n)%nat -> leaves_out y (strip_fences_from 0 y)).
  { induction n as [|n IH]; intros [|c y] Hl; try (constructor; fail);
      [cbn [length] in Hl; lia|].
    cbn [length] in Hl.
    unfold strip_fences_from; fold strip_fences_from.
    destruct (match_fence (c :: y)) as [[|k]|] eqn:E;
      try (apply leaves_out_keep, IH; lia).
    destruct (match_fence_marker (c :: y) (S k) E) as (m & Hm & Hx & Hlen).
    rewrite strip_fences_skip.
    change (skipn k y) with (skipn (S k) (c :: y)).
    rewrite Hx at 1. apply leaves_out_drop; [exact Hm|].
    apply IH. cbn [skipn]. rewrite length_skipn. lia. }
  exact (H (length x) x (le_n _)).
Qed.

Lemma leaves_out_shorter (x y : jsstring) :
  leaves_out x y -> (length y <= length x)%nat.
Proof.
  induction 1 as [|c x y _ IH|m x y _ _ IH]; cbn [length]; [lia|lia|].
  rewrite length_app. lia.
Qed.

(** X12.  A reply in which the fence marker does not occur goes to
    [JSON.parse] exactly as the model wrote it: the parser changes nothing
    in it, so a bare JSON reply decodes as it stands.  On any reply the
    parser only removes code units: the text it decodes is the reply with
    pieces left out, each piece one of the four forms of the marker, and
    every other code unit kept in its place in the order; so it is never
    longer than the reply. *)
Theorem plain_reply_is_decoded_as_written (x : jsstring) :
  (forall a b, x <> a ++ fence ++ b) ->
  strip_fences x = x /\ parse_reply x = JSON.parse x /\
  (forall y, leaves_out y (strip_fences y) /\
             parse_reply y = JSON.parse (strip_fences y)) /\
  (forall y, (length (strip_fences y) <= length y)%nat).
Proof.
  intros H. apply no_occurrence in H.
  split; [now apply strip_fences_plain|].
  split; [unfold parse_reply; now rewrite strip_fences_plain|].
  split.
  - intros y. split; [apply strip_fences_leaves_out|reflexivity].
  - intros y. apply strip_fences_shorter.
Qed.

Lemma plain_reply_is_decoded_as_written_witness :
  parse_reply (jq "{~tasks~: []}") = Normal (VObj [(js "tasks", VArr [])]).
Proof.
  destruct (plain_reply_is_decoded_as_written (jq "{~tasks~: []}")) as (_ & H & _).
  - apply occurs_false. reflexivity.
  - rewrite H. reflexivity.
Defined.

Lemma starts_with_app_app (p q s : jsstring) :
  starts_with (p ++ q) (p ++ s) = starts_with q s.
Proof.
  induction p as [|c p IH]; [reflexivity|].
  cbn [app starts_with]. now rewrite N.eqb_refl.
Qed.

(** No marker begins inside a text that holds none and does not end in a
    backtick, whatever follows the text. *)
Lemma head_not_fence (a b : jsstring) :
  occurs fence a = false -> a <> [] -> last a 0%N <> 96%N ->
  starts_with fence (a ++ b) = false.
Proof.
  change fence with [96; 96; 96]%N.
  destruct a as [|c [|d [|e a]]]; intros Ho Hne Hl.
  - now destruct Hne.
  - cbn [last] in Hl. cbn [app starts_with].
    destruct (N.eqb_spec 96 c) as [<-|_]; [now destruct Hl|reflexivity].
  - cbn [last] in Hl. cbn [app starts_with].
    destruct (N.eqb_spec 96 d) as [<-|_]; [now destruct Hl|].
    apply andb_false_r.
  - cbn [occurs] in Ho. apply orb_false_iff in Ho as [Ho _].
    cbn [app starts_with] in *. exact Ho.
Qed.

Lemma occurs_tail (p : jsstring) (c : N) (a : jsstring) :
  occurs p (c :: a) = false -> occurs p a = false.
Proof.
  destruct a as [|d a]; cbn [occurs]; intros H.
  - apply orb_false_iff in H as [_ H]. exact H.
  - apply orb_false_iff in H as [_ H]. exact H.
Qed.

Lemma strip_fences_at_marker (b : jsstring) :
  starts_with (js "json") b = false ->
  strip_fences_from 0 (fence ++ b) = strip_fences_from 0 b.
Proof.
  intros Hb.
  assert (Hm : match_fence (fence ++ b) = Some 3%nat).
  { unfold match_fence. rewrite starts_with_app_app, Hb.
    rewrite <- (app_nil_r fence) at 3. now rewrite starts_with_app_app. }
  change (fence ++ b) with (96 :: 96 :: 96 :: b)%N in *.
  unfold strip_fences_from at 1; fold strip_fences_from.
  rewrite Hm. now rewrite strip_fences_skip.
Qed.

Lemma strip_fences_before_marker (a b : jsstring) :
  occurs fence a = false ->
  last a 0%N <> 96%N -> last a 0%N <> LF ->
  starts_with (js "json") b = false ->
  strip_fences_from 0 (a ++ fence ++ b) = a ++ strip_fences_from 0 b.
Proof.
  intros Ho Hq Hl Hb. induction a as [|c a IH].
  - now apply strip_fences_at_marker.
  - assert (Hc : starts_with fence ((c :: a) ++ fence ++ b) = false)
      by (apply head_not_fence; [exact Ho|discriminate|exact Hq]).
    assert (Hm : match_fence ((c :: a) ++ fence ++ b) = None).
    { unfold match_fence.
      assert (H1 : starts_with (fence ++ js "json") ((c :: a) ++ fence ++ b) = false).
      { destruct (starts_with (fence ++ js "json") ((c :: a) ++ fence ++ b)) eqn:E;
          [|reflexivity].
        apply starts_with_split in E as [r E]. rewrite E, <- app_assoc in Hc.
        now rewrite starts_with_app in Hc. }
      rewrite H1, Hc.
      change (starts_with (LF :: fence) ((c :: a) ++ fence ++ b))
        with (N.eqb LF c && starts_with fence (a ++ fence ++ b))%bool.
      destruct a as [|d a].
      - cbn [last] in Hl. destruct (N.eqb_spec LF c) as [<-|_]; [now destruct Hl|].
        reflexivity.
      - rewrite head_not_fence; [now rewrite andb_false_r| |discriminate|exact Hq].
        exact (occurs_tail fence c (d :: a) Ho). }
    change ((c :: a) ++ fence ++ b) with (c :: (a ++ fence ++ b)) in *.
    unfold strip_fences_from at 1; fold strip_fences_from.
    rewrite Hm. cbn [app]. f_equal.
    apply IH.
    + exact (occurs_tail fence c a Ho).
    + destruct a; [discriminate|exact Hq].
    + destruct a; [discriminate|exact Hl].
Qed.

(** X21.  The replace takes a marker out wherever it stands, not only at
    the two ends of a reply: when the text before a marker holds no
    marker and ends neither in a backtick nor in a line feed, and the text
    after it does not begin with the language tag, the text that is
    decoded is the text before, as it is, followed by what the replace
    makes of the text after.  This holds in the middle of a JSON string as
    anywhere else. *)
Theorem marker_is_removed_where_it_stands (a b : jsstring) :
  (forall u v, a <> u ++ fence ++ v) ->
  last a 0%N <> 96%N -> last a 0%N <> LF ->
  starts_with (js "json") b = false ->
  strip_fences (a ++ fence ++ b) = a ++ strip_fences b /\
  parse_reply (a ++ fence ++ b) = JSON.parse (a ++ strip_fences b).
Proof.
  intros H Hq Hl Hb. apply no_occurrence in H.
  assert (E : strip_fences (a ++ fence ++ b) = a ++ strip_fences b)
    by now apply strip_fences_before_marker.
  split; [exact E|]. unfold parse_reply. now rewrite E.
Qed.

Lemma marker_is_removed_where_it_stands_witness :
  parse_reply (jq "{~a~:~" ++ fence ++ jq "~}") = Normal (VObj [(js "a", VStr [])]).
Proof.
  destruct (marker_is_removed_where_it_stands (jq "{~a~:~") (jq "~}")) as [_ H].
  - apply occurs_false. reflexivity.
  - discriminate.
  - discriminate.
  - reflexivity.
  - rewrite H. reflexivity.
Defined.

(* ================================================================= *)
(** * The task extraction: what every result has *)

Lemma field_with_counts_other (data : value) (k : string) :
  existsb (str_eqb (js k)) counter_names = false ->
  field (with_counts data) k = field data k.
Proof.
  intros Hk. unfold counter_names in Hk. cbn [existsb] in Hk.
  repeat (apply orb_false_iff in Hk as [? Hk]).
  destruct data as [| | | | |?|ps]; try reflexivity.
  unfold with_counts. destruct (field (VObj ps) "tasks"); try reflexivity.
  unfold field. now rewrite !own_obj_set_other.
Qed.

(** X13.  Whatever the model does (a reply that decodes, one that does
    not, a failed call), the result of the task extraction is an object
    whose [tasks] is an array; and when the reply decodes to an object the
    counters can be written into, every property of the reply other than
    the four counters is in the result as decoded. *)
Theorem extracted_tasks_shape (env : Env) (t : jsstring) :
  (exists ts, field (extractTasks env t) "tasks" = VArr ts) /\
  (forall text data k,
     reply env Tasks t = Normal text ->
     parse_reply text = Normal data ->
     countable data = true ->
     existsb (str_eqb (js k)) counter_names = false ->
     field (extractTasks env t) k = field data k).
Proof.
  split.
  - rewrite extractTasks_cases.
    destruct (reply env Tasks t) as [text|e]; [|now exists []].
    destruct (parse_reply text) as [data|e]; [|now exists []].
    destruct (countable data) eqn:Hc; [|now exists []].
    rewrite (field_with_counts_other data "tasks") by reflexivity.
    unfold countable in Hc. destruct (field data "tasks"); try discriminate.
    now exists items.
  - intros text data k Hr Hp Hc Hk.
    rewrite extractTasks_cases, Hr, Hp, Hc. now apply field_with_counts_other.
Qed.

(* ================================================================= *)
(** * The listing: when it answers, and what an entry holds *)

Lemma firstn_short {A} (n : nat) (l : list A) : (length l <= n)%nat -> firstn n l = l.
Proof.
  revert n; induction l as [|x l IH]; intros [|n] H; simpl in *; try reflexivity;
    try lia. f_equal. apply IH. lia.
Qed.

(** X14.  The listing answers exactly when every stored summary is a
    string, and then with status 200 and one entry per stored meeting, in
    reverse order of the map; otherwise it throws, whatever else is
    stored.  In particular the listing of an empty map is the empty
    list. *)
Theorem listing_answers_iff (s : Server) (r : Response) :
  get_meetings s = Normal r <->
  forallb (fun m => is_text (summary m)) (Map.values (meetingDatabase s)) = true /\
  r = listing (Map.values (meetingDatabase s)).
Proof.
  unfold get_meetings.
  destruct (forallb (fun m => is_text (summary m)) (Map.values (meetingDatabase s)))
    eqn:E.
  - rewrite (mapM_entries _ E). cbn [bind]. unfold listing. split.
    + intros H. injection H as <-. auto.
    + intros [_ ->]. reflexivity.
  - destruct (mapM_throws _ E) as [e He]. rewrite He. cbn [bind].
    split; [discriminate|intros [H _]; discriminate].
Qed.

(** X15.  The entry of a meeting whose summary is a string holds the id,
    file name and timestamp of the meeting and, as summary, the first 200
    code units of the string followed by three dots: at most 203 code
    units, and the dots are there also when nothing was cut. *)
Theorem entry_is_truncated (m : Meeting) (text : jsstring) :
  summary m = VStr text ->
  exists short,
    meeting_entry m
    = Normal (VObj [(js "id", VStr (id m));
                    (js "filename", VStr (filename m));
                    (js "timestamp", VStr (timestamp m));
                    (js "summary", VStr (short ++ js "..."))]) /\
    short = firstn 200 text /\
    (length (short ++ js "...") <= 203)%nat /\
    ((length text <= 200)%nat -> short = text).
Proof.
  intros H. exists (firstn 200 text). unfold meeting_entry. rewrite H.
  split; [reflexivity|]. split; [reflexivity|]. split.
  - rewrite length_app.
    assert (length (firstn 200 text) <= 200)%nat by (rewrite length_firstn; lia).
    change (length (js "...")) with 3%nat. lia.
  - apply firstn_short.
Qed.

Lemma entry_is_truncated_witness :
  exists short,
    meeting_entry {| id := js "1"; filename := js "a.wav"; timestamp := js "now";
                     transcription := js "hello"; summary := str "Short summary";
                     tasks := VNull; improvements := VNull; factCheck := VNull |}
    = Normal (VObj [(js "id", str "1");
                    (js "filename", str "a.wav");
                    (js "timestamp", str "now");
                    (js "summary", VStr (short ++ js "..."))]) /\
    short = firstn 200 (js "Short summary") /\
    (length (short ++ js "...") <= 203)%nat /\
    ((length (js "Short summary") <= 200)%nat -> short = js "Short summary").
Proof.
  apply (entry_is_truncated
           {| id := js "1"; filename := js "a.wav"; timestamp := js "now";
              transcription := js "hello"; summary := str "Short summary";
              tasks := VNull; improvements := VNull; factCheck := VNull |}
           (js "Short summary")).
  reflexivity.
Defined.

(* ================================================================= *)
(** * The name under which an upload is stored *)

Lemma uint_digits_are_digits (d : Decimal.uint) :
  Forall (fun c => is_digit c = true) (uint_digits d).
Proof. induction d; simpl; constructor; auto. Qed.

Lemma digits_avoid (c : N) (n : N) : is_digit c = false -> ~ In c (digits n).
Proof.
  intros Hc Hin. pose proof (uint_digits_are_digits (N.to_uint n)) as H.
  rewrite Forall_forall in H. apply H in Hin. congruence.
Qed.

Lemma digits_nonempty (n : N) : digits n <> [].
Proof.
  unfold digits. destruct n as [|p]; [discriminate|].
  cbn [N.to_uint]. pose proof (DecimalPos.Unsigned.to_uint_nonnil p) as H.
  destruct (Pos.to_uint p); try discriminate. now destruct H.
Qed.

Lemma time_string (t : N) :
  (t <= max_time_value)%N -> number_to_string (Int (Z.of_N t)) = digits t.
Proof.
  intros H.
  exact (now_string_digits
           {| generateContent := fun _ => Normal []; Date_now := t; toISOString := [] |} H).
Qed.

(** Two texts cut at the first occurrence of a code unit that neither
    head holds. *)
Lemma split_at_first (c : N) (a b x y : jsstring) :
  ~ In c a -> ~ In c b -> a ++ c :: x = b ++ c :: y -> a = b /\ x = y.
Proof.
  revert b; induction a as [|u a IH]; intros [|v b] Ha Hb H; simpl in *.
  - injection H as ->. auto.
  - injection H as -> _. tauto.
  - injection H as -> _. tauto.
  - injection H as -> H. destruct (IH b) as [-> ->]; auto.
Qed.

(** X16.  The name under which an upload is stored, the clock value
    followed by a dash and the original name, determines both: two uploads
    get the same stored name exactly when they were stored in the same
    millisecond under the same original name.  (Clock values are time
    values.) *)
Theorem storage_filename_determines (t1 t2 : N) (n1 n2 : jsstring) :
  (t1 <= max_time_value)%N -> (t2 <= max_time_value)%N ->
  (storage_filename t1 n1 = storage_filename t2 n2 <-> t1 = t2 /\ n1 = n2).
Proof.
  intros H1 H2. unfold storage_filename. rewrite (time_string t1 H1), (time_string t2 H2).
  split; [|now intros [-> ->]].
  change (js "-" ++ n1) with (45%N :: n1). change (js "-" ++ n2) with (45%N :: n2).
  intros H. apply split_at_first in H as [Hd Hn];
    try (apply digits_avoid; reflexivity).
  split; [now apply digits_inj|exact Hn].
Qed.

Lemma storage_filename_determines_witness :
  storage_filename 1700000000000 (js "a.wav") = storage_filename 1700000000000 (js "a.wav")
  <-> 1700000000000%N = 1700000000000%N /\ js "a.wav" = js "a.wav".
Proof.
  apply (storage_filename_determines 1700000000000 1700000000000 (js "a.wav") (js "a.wav")).
  - vm_compute. discriminate.
  - vm_compute. discriminate.
Defined.

Lemma from_last_none (c : N) (l : jsstring) : ~ In c l <-> from_last c l = None.
Proof.
  induction l as [|x l IH]; simpl; [tauto|].
  destruct (from_last c l) eqn:E.
  - split; [|discriminate]. intros H. exfalso.
    assert (Hn : ~ In c l) by tauto. apply IH in Hn. discriminate.
  - destruct (N.eqb_spec x c) as [->|Hx].
    + split; [tauto|discriminate].
    + split; [reflexivity|]. intros _ [H|H]; [congruence|].
      now apply (proj2 IH).
Qed.

Lemma from_last_app (c : N) (a b e : jsstring) :
  from_last c b = Some e -> from_last c (a ++ b) = Some e.
Proof. intros H. induction a as [|x a IH]; simpl; [exact H|]. now rewrite IH. Qed.

Lemma from_last_app_none (c : N) (a b : jsstring) :
  ~ In c a -> from_last c b = None -> from_last c (a ++ b) = None.
Proof.
  intros Ha Hb. apply from_last_none. intros Hin.
  apply in_app_or in Hin as [H|H]; [contradiction|].
  now apply (proj2 (from_last_none c b)) in Hb.
Qed.

Lemma from_last_is_suffix (c : N) (l e : jsstring) :
  from_last c l = Some e -> exists a, l = a ++ e.
Proof.
  revert e; induction l as [|x l IH]; simpl; intros e H; [discriminate|].
  destruct (from_last c l) eqn:E.
  - injection H as <-. destruct (IH _ eq_refl) as [a ->]. now exists (x :: a).
  - destruct (N.eqb x c); [|discriminate]. injection H as <-. now exists [].
Qed.

Lemma drop_slashes_none (l : jsstring) :
  match l with c :: _ => c <> 47%N | [] => True end -> drop_slashes l = l.
Proof.
  destruct l as [|c l]; [reflexivity|]. simpl. intros H.
  destruct (N.eqb_spec c 47); [contradiction|reflexivity].
Qed.

(** X17.  The extension seen by the transcription step of an upload, at
    the path multer gives it, is the part of the original name from its
    last dot on (nothing when the name has no dot), also when that dot
    leads the name; so the MIME type sent with the audio is the table
    entry of that suffix in lower case, [audio/mpeg] when there is none.
    (The original name holds no slash, the clock value is a time
    value.) *)
Theorem upload_extension (t : N) (name : jsstring) :
  (t <= max_time_value)%N -> ~ In 47%N name ->
  extname (upload_path t name) = suffix name /\
  mime_of (upload_path t name)
  = match assoc (toLowerCase (suffix name)) mimeTypes with
    | Some m => m
    | None => js "audio/mpeg"
    end.
Proof.
  intros Ht Hn.
  assert (E : extname (upload_path t name) = suffix name);
    [|split; [exact E|unfold mime_of; now rewrite E]].
  unfold upload_path, storage_filename. rewrite (time_string t Ht).
  set (base := digits t ++ js "-" ++ name).
  assert (Hbase : ~ In 47%N base).
  { unfold base. intros Hin. apply in_app_or in Hin as [H|H].
    - revert H. apply digits_avoid. reflexivity.
    - apply in_app_or in H as [[H|[]]|H]; [discriminate H|contradiction]. }
  unfold extname.
  assert (Htrim : rev (drop_slashes (rev (js "uploads/" ++ base))) = js "uploads/" ++ base).
  { rewrite drop_slashes_none; [apply rev_involutive|].
    destruct (rev (js "uploads/" ++ base)) as [|c r] eqn:Er; [exact I|].
    intros ->. assert (Hin : In 47%N (rev (js "uploads/" ++ base)))
      by (rewrite Er; now left).
    apply in_rev in Hin.
    assert (Hlast : exists l, rev base = 47%N :: l).
    { rewrite rev_app_distr in Er.
      destruct (rev base) as [|c' r'] eqn:Eb.
      - apply (f_equal (@rev N)) in Eb. rewrite rev_involutive in Eb.
        unfold base in Eb. destruct (digits t) eqn:Ed; [|discriminate Eb].
        now destruct (digits_nonempty t).
      - cbn [app] in Er. injection Er as -> _. now exists r'. }
    destruct Hlast as [l Hl]. apply Hbase. apply in_rev. rewrite Hl. now left. }
  rewrite Htrim.
  change (js "uploads/" ++ base) with (js "uploads" ++ 47%N :: base).
  assert (Hb0 : from_last 47 base = None) by now apply from_last_none.
  rewrite (from_last_app 47 (js "uploads") (47%N :: base) (47%N :: base))
    by (cbn [from_last]; now rewrite Hb0).
  unfold suffix.
  destruct (from_last 46 name) as [e|] eqn:En.
  - assert (Hb : from_last 46 base = Some e).
    { unfold base. rewrite app_assoc. now apply from_last_app. }
    rewrite Hb.
    destruct (from_last_is_suffix 46 name e En) as [a Ha].
    assert (Hlen : Nat.eqb (length e) (length base) = false).
    { apply Nat.eqb_neq. unfold base. rewrite Ha, !length_app. cbn [length js].
      change (length (js "-")) with 1%nat. lia. }
    rewrite Hlen.
    assert (Hdd : str_eqb base (js "..") = false).
    { unfold base. destruct (digits t) as [|c d] eqn:Ed;
        [now destruct (digits_nonempty t)|].
      assert (Hc : is_digit c = true).
      { pose proof (uint_digits_are_digits (N.to_uint t)) as F.
        fold (digits t) in F. rewrite Ed in F. now inversion F. }
      change (js "..") with [46; 46]%N. cbn [app str_eqb].
      destruct (N.eqb_spec c 46) as [->|]; [discriminate Hc|reflexivity]. }
    now rewrite Hdd.
  - assert (Hb : from_last 46 base = None).
    { unfold base. apply from_last_app_none; [apply digits_avoid; reflexivity|].
      apply from_last_app_none; [intros [H|[]]; discriminate H|exact En]. }
    now rewrite Hb.
Qed.

Lemma upload_extension_witness :
  extname (upload_path 1700000000000 (js ".MP3")) = js ".MP3" /\
  mime_of (upload_path 1700000000000 (js ".MP3")) = js "audio/mp3".
Proof.
  destruct (upload_extension 1700000000000 (js ".MP3")) as [H1 H2].
  - vm_compute. discriminate.
  - vm_compute. intuition discriminate.
  - split; [rewrite H1|rewrite H2]; reflexivity.
Defined.
